(** * Service worker of routine-types: the caching engine

    A shallow embedding of the service worker script (the first file of
    [src/unnamed/part_000], lines 1-293): the strategy classifier
    [getStrategyForRequest], the three strategy executors [cacheFirst],
    [networkFirst] and [staleWhileRevalidate], the [activate] sweep, the
    [fetch] listener and the [message] listener.

    The browser platform (CacheStorage, Cache, fetch, clients, the reply
    port, the console) is the environment of the script.  It is modelled as
    a world state threaded through a small promise monad:
    - the cache store is a finite map from namespace names to finite maps
      from request URLs to response snapshots; a lookup in it is what
      [cache.match] yields for a GET request, and it refuses the writes the
      platform refuses: for a request that is not a GET request, for a 206
      response and for a response with Vary: * (store failures that depend
      on the device, such as an exceeded quota, are outside the model);
    - entries are matched by URL: the requests for one URL are taken to
      differ in nothing that a Vary header of the stored response names;
    - a request is an http or https request, as the requests of fetch
      events are; its method is passed to the executors next to it, and
      the script's own names stand for the executors at a GET request;
    - the network is an oracle from request URLs to settled fetches;
    - [caches.delete] may reject, as told by a second oracle;
    - everything observable that the script does (network calls, deletions,
      console lines, the client claim, replies on the message port) is
      appended to a trace, most recent event first;
    - a promise the script starts and does not await has settled in the
      world the function leaves; where the script lets a fetch run while
      it returns, the order of issue, return and settlement is kept in a
      timeline of its own, most recent tick first.

    The page script (the second file of [src/unnamed/part_000]) follows:
    the theme manager, the set-up of syntax highlighting and the clipboard
    manager, over a record of the parts of the document they touch. *)

From Stdlib Require Import ZArith Ascii String.
From stdpp Require Import gmap strings list fin_maps.

#[local] Set Warnings "-clear-no-such-hyp".

Local Open Scope string_scope.
Local Open Scope Z_scope.

(** ** JavaScript strings and arrays, as far as the script uses them *)

Module Js.

(** [s.split(sep)] for a one-character separator: never the empty array. *)
Fixpoint split (sep : ascii) (s : string) : list string :=
  match s with
  | EmptyString => [EmptyString]
  | String c rest =>
      if Ascii.eqb c sep then EmptyString :: split sep rest
      else match split sep rest with
           | [] => [String c EmptyString]
           | seg :: segs => String c seg :: segs
           end
  end.

(** [a.pop()]: the last element, [undefined] ([None]) on the empty array. *)
Definition pop (a : list string) : option string := last a.

(** [s.includes(needle)]: [needle] occurs in [s] as a substring. *)
Fixpoint includes (needle s : string) : bool :=
  String.prefix needle s ||
  match s with
  | EmptyString => false
  | String _ rest => includes needle rest
  end.

(** [a.includes(x)] on an array of strings, [x] possibly [undefined]. *)
Definition array_includes (a : list string) (x : option string) : bool :=
  match x with
  | Some s => existsb (String.eqb s) a
  | None => false
  end.

(** [x === lit] for a possibly undefined string [x]. *)
Definition strict_eq (x : option string) (lit : string) : bool :=
  match x with
  | Some s => String.eqb s lit
  | None => false
  end.

(** Byte-lowercasing, as the Headers object applies to header names. *)
Definition lower_ascii (c : ascii) : ascii :=
  let n := N_of_ascii c in
  if ((65 <=? n) && (n <=? 90))%N then ascii_of_N (n + 32) else c.

Fixpoint lower (s : string) : string :=
  match s with
  | EmptyString => EmptyString
  | String c rest => String (lower_ascii c) (lower rest)
  end.

(** [array.join(sep)]. *)
Fixpoint join (sep : string) (a : list string) : string :=
  match a with
  | [] => EmptyString
  | [s] => s
  | s :: rest => s +:+ sep +:+ join sep rest
  end.

End Js.

(** ** Requests, responses and errors *)

(** A parsed URL, [new URL(request.url)]: the fields the script reads. *)
Record URL := mkURL {
  origin : string;
  pathname : string;
  search : string
}.

Definition href (u : URL) : string := origin u +:+ pathname u +:+ search u.

(** A Headers object: the list of (name, value) pairs it was built from. *)
Definition Headers := list (string * string).

(** [headers.get(name)]: names match case-insensitively; the values of a
    repeated name are combined with ", "; [null] when the name is absent. *)
Definition headers_get (name : string) (h : Headers) : option string :=
  match List.filter (fun nv => String.eqb (Js.lower (fst nv)) (Js.lower name)) h with
  | [] => None
  | found => Some (Js.join ", " (List.map snd found))
  end.

Record Request := mkRequest {
  url : URL;
  headers : Headers
}.

Record Response := mkResponse {
  status : Z;
  statusText : string;
  resp_headers : Headers;
  body : string
}.

(** [response.ok]: the status is in the range 200-299. *)
Definition ok (r : Response) : bool := (200 <=? status r) && (status r <=? 299).

(** [response.clone()]: a snapshot is an immutable copy. *)
Definition clone (r : Response) : Response := r.

Record ResponseInit := mkInit {
  init_status : Z;
  init_statusText : string;
  init_headers : Headers
}.

(** [new Response(text, init)]: a string body without a declared content
    type gets the platform's plain-text content type. *)
Definition new_Response (text : string) (init : ResponseInit) : Response :=
  {| status := init_status init;
     statusText := init_statusText init;
     resp_headers :=
       match headers_get "content-type" (init_headers init) with
       | Some _ => init_headers init
       | None => (init_headers init ++ [("content-type", "text/plain;charset=UTF-8")])%list
       end;
     body := text |}.

Record Error := mkError {
  err_name : string;
  message : string
}.

(** ** Constants of the script *)

Definition CACHE_VERSION : string := "v1.0.0".

(** [`ts-snippets-${CACHE_VERSION}`], for any version string. *)
Definition cache_name_of (version : string) : string := "ts-snippets-" +:+ version.

Definition CACHE_NAME : string := cache_name_of CACHE_VERSION.

Module CACHE_STRATEGIES.
Definition CACHE_FIRST : string := "cache-first".
Definition NETWORK_FIRST : string := "network-first".
Definition STALE_WHILE_REVALIDATE : string := "stale-while-revalidate".
End CACHE_STRATEGIES.

Module RESOURCE_STRATEGIES.
Definition html : string := CACHE_STRATEGIES.NETWORK_FIRST.
Definition styles : string := CACHE_STRATEGIES.STALE_WHILE_REVALIDATE.
Definition scripts : string := CACHE_STRATEGIES.STALE_WHILE_REVALIDATE.
Definition images : string := CACHE_STRATEGIES.CACHE_FIRST.
End RESOURCE_STRATEGIES.

(** ** The strategy classifier *)

(** [url.pathname.split('.').pop()]. *)
Definition extension (request : Request) : option string :=
  Js.pop (Js.split "." (pathname (url request))).

(** [request.headers.get('accept')?.includes('text/html')], as a condition. *)
Definition accepts_html (request : Request) : bool :=
  match headers_get "accept" (headers request) with
  | Some accept => Js.includes "text/html" accept
  | None => false
  end.

Definition image_extensions : list string :=
  ["jpg"; "jpeg"; "png"; "gif"; "webp"; "svg"].

Definition getStrategyForRequest (request : Request) : string :=
  let extension := extension request in
  if accepts_html request || Js.strict_eq extension "html" then
    RESOURCE_STRATEGIES.html
  else if Js.strict_eq extension "css" then
    RESOURCE_STRATEGIES.styles
  else if Js.strict_eq extension "js" then
    RESOURCE_STRATEGIES.scripts
  else if Js.array_includes image_extensions extension then
    RESOURCE_STRATEGIES.images
  else
    CACHE_STRATEGIES.NETWORK_FIRST.

(** ** The platform: world state and promises *)

Record Reply := mkReply {
  success : bool;
  error : option string
}.

Inductive Event :=
| Fetched (target : string)
| Deleting (name : string)
| Console (args : list string)
| Claimed
| SkippedWaiting
| Posted (reply : Reply).

Inductive Settled (A : Type) :=
| Fulfilled (a : A)
| Rejected (e : Error).
Arguments Fulfilled {A} a.
Arguments Rejected {A} e.

(** A moment in the life of a fetch that the script lets run on its own:
    the fetch was issued, the function that issued it reached its return
    statement (with the response it returns at once, or with a promise
    that is still pending), the fetch settled. *)
Inductive Tick :=
| Issued (target : string)
| Returned (response : option Response)
| FetchSettled (target : string).

(** The world the worker runs in.  [network], [delete_failure],
    [request_failed] (the TypeError with which the cache store refuses a
    request or a response) and [batch_conflict] (the InvalidStateError with
    which it refuses a batch that names a request twice) describe the
    platform and are never written by the script; [storage] is the
    CacheStorage, [trace] the events so far and [timeline] the ticks so
    far, both most recent first. *)
Record World := mkWorld {
  network : string -> Settled Response;
  delete_failure : string -> option Error;
  request_failed : Error;
  batch_conflict : Error;
  storage : gmap string (gmap string Response);
  trace : list Event;
  timeline : list Tick
}.

Definition set_storage (st : gmap string (gmap string Response)) (w : World) : World :=
  {| network := network w; delete_failure := delete_failure w;
     request_failed := request_failed w; batch_conflict := batch_conflict w;
     storage := st; trace := trace w; timeline := timeline w |}.

Definition emit (e : Event) (w : World) : World :=
  {| network := network w; delete_failure := delete_failure w;
     request_failed := request_failed w; batch_conflict := batch_conflict w;
     storage := storage w; trace := e :: trace w; timeline := timeline w |}.

Definition set_timeline (t : list Tick) (w : World) : World :=
  {| network := network w; delete_failure := delete_failure w;
     request_failed := request_failed w; batch_conflict := batch_conflict w;
     storage := storage w; trace := trace w; timeline := t |}.

(** A promise, run to settlement in a world. *)
Definition Promise (A : Type) : Type := World -> Settled A * World.

Definition resolve {A} (a : A) : Promise A := fun w => (Fulfilled a, w).

Definition reject {A} (e : Error) : Promise A := fun w => (Rejected e, w).

(** [await p] followed by the rest of an async function, or [p.then(k)]. *)
Definition bind {A B} (p : Promise A) (k : A -> Promise B) : Promise B :=
  fun w =>
    match p w with
    | (Fulfilled a, w') => k a w'
    | (Rejected e, w') => (Rejected e, w')
    end.

(** [try { p } catch (error) { h }], or [p.catch(h)]. *)
Definition catch {A} (p : Promise A) (h : Error -> Promise A) : Promise A :=
  fun w =>
    match p w with
    | (Fulfilled a, w') => (Fulfilled a, w')
    | (Rejected e, w') => h e w'
    end.

(** A promise that is started and not awaited: its effects take place, its
    outcome is dropped. *)
Definition unawaited {A} (p : Promise A) : Promise unit :=
  fun w => (Fulfilled tt, snd (p w)).

(** [Promise.all(ps)]: every member was started when the array was built,
    so every member runs; the result rejects with the first rejection. *)
Fixpoint Promise_all {A} (ps : list (Promise A)) : Promise (list A) :=
  fun w =>
    match ps with
    | [] => (Fulfilled [], w)
    | p :: rest =>
        let (r, w1) := p w in
        let (rs, w2) := Promise_all rest w1 in
        (match r, rs with
         | Rejected e, _ => Rejected e
         | Fulfilled _, Rejected e => Rejected e
         | Fulfilled a, Fulfilled l => Fulfilled (a :: l)
         end, w2)
    end.

Declare Scope promise_scope.
Delimit Scope promise_scope with promise.
Bind Scope promise_scope with Promise.

Notation "'await' x <- p ; k" := (bind p (fun x => k))
  (at level 10, x name, p at level 100, k at level 200) : promise_scope.
Notation "'await' ' pat <- p ; k" := (bind p (fun x => match x with pat => k end))
  (at level 10, pat pattern, p at level 100, k at level 200) : promise_scope.
Notation "'perform' p ; k" := (bind p (fun _ => k))
  (at level 10, p at level 100, k at level 200) : promise_scope.

Local Open Scope promise_scope.

(** *** Platform operations *)

Definition console_log (args : list string) : Promise unit :=
  fun w => (Fulfilled tt, emit (Console args) w).

Definition console_error (args : list string) : Promise unit :=
  console_log args.

(** [caches.open(name)]: the namespace is created when it does not exist.
    The Cache object is represented by the name it was opened under. *)
Definition caches_open (name : string) : Promise string :=
  fun w =>
    match storage w !! name with
    | Some _ => (Fulfilled name, w)
    | None => (Fulfilled name, set_storage (<[name := ∅]> (storage w)) w)
    end.

(** The entries of a namespace; none when the namespace does not exist. *)
Definition entries (cache : string) (w : World) : gmap string Response :=
  default ∅ (storage w !! cache).

(** What [cache.match] yields for a request with the given method: the
    entry of its URL for a GET request, [undefined] for any other method
    and when there is no entry. *)
Definition matched (method cache : string) (request : Request) (w : World)
  : option Response :=
  if String.eqb method "GET" then entries cache w !! href (url request) else None.

Definition cache_match_as (method cache : string) (request : Request)
  : Promise (option Response) :=
  fun w => (Fulfilled (matched method cache request w), w).

(** [cache.match(request)] for a GET request. *)
Definition cache_match (cache : string) (request : Request) : Promise (option Response) :=
  cache_match_as "GET" cache request.

Definition put_entry (cache key : string) (response : Response) (w : World) : World :=
  set_storage (<[cache := <[key := response]> (entries cache w)]> (storage w)) w.

(** The field values of a comma-separated header. *)
Fixpoint trim_left (s : string) : string :=
  match s with
  | String c rest =>
      if Ascii.eqb c " " || Ascii.eqb c (ascii_of_N 9) then trim_left rest else s
  | EmptyString => EmptyString
  end.

Fixpoint rev_string (s acc : string) : string :=
  match s with
  | EmptyString => acc
  | String c rest => rev_string rest (String c acc)
  end.

Definition trim (s : string) : string :=
  rev_string (trim_left (rev_string (trim_left s) "")) "".

Definition field_values (value : string) : list string :=
  List.map trim (Js.split "," value).

(** The response has a Vary header with the field value "*". *)
Definition vary_star (response : Response) : bool :=
  match headers_get "vary" (resp_headers response) with
  | Some value => existsb (String.eqb "*") (field_values value)
  | None => false
  end.

(** The cache store takes a response for a request with the given method:
    the method is GET, the status is not 206 and there is no Vary: *. *)
Definition storable (method : string) (response : Response) : bool :=
  String.eqb method "GET" && negb (status response =? 206) && negb (vary_star response).

(** A fetched response ends up in the store: it is ok and the store takes
    it for a request with the given method. *)
Definition stores (method : string) (response : Response) : bool :=
  ok response && storable method response.

(** [cache.put(request, response)] for a request with the given method:
    the entry for the request is overwritten, unless the store refuses the
    write, in which case the promise rejects and nothing is stored. *)
Definition cache_put_as (method cache : string) (request : Request) (response : Response)
  : Promise unit :=
  fun w =>
    if storable method response
    then (Fulfilled tt, put_entry cache (href (url request)) response w)
    else (Rejected (request_failed w), w).

(** [cache.put(request, response)] for a GET request. *)
Definition cache_put (cache : string) (request : Request) (response : Response) : Promise unit :=
  cache_put_as "GET" cache request response.

(** A tick of the timeline. *)
Definition tick (t : Tick) : Promise unit :=
  fun w => (Fulfilled tt, set_timeline (t :: timeline w) w).

(** [fetch] of a URL: the call is recorded, the network decides. *)
Definition fetch_start (target : string) : Promise unit :=
  fun w => (Fulfilled tt, emit (Fetched target) w).

Definition fetch_settle (target : string) : Promise Response :=
  fun w => (network w target, w).

Definition fetch_url (target : string) : Promise Response :=
  perform fetch_start target; fetch_settle target.

Definition fetch (request : Request) : Promise Response :=
  fetch_url (href (url request)).

(** [caches.keys()]. *)
Definition caches_keys : Promise (list string) :=
  fun w => (Fulfilled (map_to_list (storage w)).*1, w).

(** [caches.delete(name)]: rejects when the platform fails to delete,
    otherwise fulfils with whether the namespace existed. *)
Definition caches_delete (name : string) : Promise bool :=
  fun w =>
    let w1 := emit (Deleting name) w in
    match delete_failure w name with
    | Some e => (Rejected e, w1)
    | None =>
        (Fulfilled (bool_decide (is_Some (storage w !! name))),
         set_storage (delete name (storage w)) w1)
    end.

Definition clients_claim : Promise unit :=
  fun w => (Fulfilled tt, emit Claimed w).

Definition skipWaiting : Promise unit :=
  fun w => (Fulfilled tt, emit SkippedWaiting w).

(** [event.ports[0].postMessage(reply)]. *)
Definition postMessage (reply : Reply) : Promise unit :=
  fun w => (Fulfilled tt, emit (Posted reply) w).

(** The fetch [cache.addAll] makes for one URL, a GET request: a fetch
    that fails, or that answers with a status that is not ok, with a 206
    or with Vary: *, rejects with the platform's TypeError. *)
Definition addAll_fetch (target : string) : Promise Response :=
  fun w =>
    match fetch_url target w with
    | (Fulfilled r, w') =>
        if ok r && storable "GET" r then (Fulfilled r, w')
        else (Rejected (request_failed w'), w')
    | (Rejected _, w') => (Rejected (request_failed w'), w')
    end.

Fixpoint put_all (cache : string) (batch : list (string * Response)) : Promise unit :=
  match batch with
  | [] => resolve tt
  | (target, response) :: rest =>
      perform (fun w => (Fulfilled tt, put_entry cache target response w));
      put_all cache rest
  end.

(** The batch of writes that ends [cache.addAll]: a batch that names a
    request twice is refused as a whole. *)
Definition batch_put (cache : string) (batch : list (string * Response)) : Promise unit :=
  fun w =>
    if bool_decide (NoDup batch.*1) then put_all cache batch w
    else (Rejected (batch_conflict w), w).

(** [cache.addAll(urls)]: every URL is fetched, and the responses are
    stored only when all of them arrived, are ok and are such as the store
    takes, and no URL is listed twice; otherwise the batch is rejected and
    nothing is stored.  The URLs are the absolute ones the listed strings
    resolve to. *)
Definition cache_addAll (cache : string) (urls : list string) : Promise unit :=
  await responses <- Promise_all (List.map addAll_fetch urls);
  batch_put cache (zip urls responses).

(** ** The strategy executors *)

(** The executors take the request of a fetch event, whatever its method.
    A request is its method, passed first, and the rest of it; the names
    of the script stand for the executors at a GET request. *)

Definition offline_text : string := "Offline - resource not available".

Definition cacheFirst_as (method : string) (request : Request)
  : Promise (option Response) :=
  await cache <- caches_open CACHE_NAME;
  await cachedResponse <- cache_match_as method cache request;
  match cachedResponse with
  | Some cached => resolve (Some cached)
  | None =>
      catch
        (await networkResponse <- fetch request;
         perform (if ok networkResponse
                  then unawaited
                         (cache_put_as method cache request (clone networkResponse))
                  else resolve tt);
         resolve (Some networkResponse))
        (fun error =>
           perform console_error ["[SW] Cache first failed:"; message error];
           resolve (Some (new_Response offline_text
                            (mkInit 503 "Service Unavailable" []))))
  end.

Definition cacheFirst (request : Request) : Promise (option Response) :=
  cacheFirst_as "GET" request.

Definition networkFirst_as (method : string) (request : Request)
  : Promise (option Response) :=
  await cache <- caches_open CACHE_NAME;
  catch
    (await networkResponse <- fetch request;
     perform (if ok networkResponse
              then unawaited
                     (cache_put_as method cache request (clone networkResponse))
              else resolve tt);
     resolve (Some networkResponse))
    (fun error =>
       perform console_log ["[SW] Network failed, trying cache:"; message error];
       await cachedResponse <- cache_match_as method cache request;
       match cachedResponse with
       | Some cached => resolve (Some cached)
       | None =>
           resolve (Some (new_Response offline_text
                            (mkInit 503 "Service Unavailable"
                               [("Content-Type", "text/html")])))
       end).

Definition networkFirst (request : Request) : Promise (option Response) :=
  networkFirst_as "GET" request.

(** The [.then(...).catch(...)] chain on the issued fetch.  It runs when
    the fetch settles; the catch handler only logs, and the chain then
    fulfils with [undefined]. *)
Definition fetchPromise (method cache : string) (request : Request)
  : Promise (option Response) :=
  perform tick (FetchSettled (href (url request)));
  catch
    (await networkResponse <- fetch_settle (href (url request));
     perform (if ok networkResponse
              then unawaited
                     (cache_put_as method cache request (clone networkResponse))
              else resolve tt);
     resolve (Some networkResponse))
    (fun error =>
       perform console_log ["[SW] Background fetch failed:"; message error];
       resolve None).

(** The function issues the fetch and reaches [return cachedResponse ||
    fetchPromise] without waiting for it: with a cached response its
    promise fulfils with that response, otherwise it follows the chain.
    The chain runs afterwards, when the fetch settles. *)
Definition staleWhileRevalidate_as (method : string) (request : Request)
  : Promise (option Response) :=
  await cache <- caches_open CACHE_NAME;
  await cachedResponse <- cache_match_as method cache request;
  perform fetch_start (href (url request));
  perform tick (Issued (href (url request)));
  perform tick (Returned cachedResponse);
  await revalidated <- fetchPromise method cache request;
  match cachedResponse with
  | Some cached => resolve (Some cached)
  | None => resolve revalidated
  end.

Definition staleWhileRevalidate (request : Request) : Promise (option Response) :=
  staleWhileRevalidate_as "GET" request.

Definition handleRequest_as (method : string) (request : Request) (strategy : string)
  : Promise (option Response) :=
  if String.eqb strategy CACHE_STRATEGIES.CACHE_FIRST then cacheFirst_as method request
  else if String.eqb strategy CACHE_STRATEGIES.NETWORK_FIRST
       then networkFirst_as method request
  else if String.eqb strategy CACHE_STRATEGIES.STALE_WHILE_REVALIDATE
       then staleWhileRevalidate_as method request
  else await r <- fetch request; resolve (Some r).

Definition handleRequest (request : Request) (strategy : string) : Promise (option Response) :=
  handleRequest_as "GET" request strategy.

(** ** The listeners *)

(** What the page that issued a request gets. *)
Inductive PageOutcome :=
| Served (r : Response)
| NetworkError
| NotIntercepted.

(** [event.respondWith(p)]: the page is served the response [p] fulfils
    with; a promise that rejects, or fulfils with something that is not a
    response, makes the page's request fail with a network error. *)
Definition respondWith (p : Promise (option Response)) : World -> PageOutcome * World :=
  fun w =>
    match p w with
    | (Fulfilled (Some r), w') => (Served r, w')
    | (Fulfilled None, w') => (NetworkError, w')
    | (Rejected _, w') => (NetworkError, w')
    end.

(** The fetch listener: it looks at the origin only, so requests of every
    method reach the executors. *)
Definition on_fetch_as (method location_origin : string) (request : Request)
  : World -> PageOutcome * World :=
  fun w =>
    if negb (String.eqb (origin (url request)) location_origin) then (NotIntercepted, w)
    else
      let strategy := getStrategyForRequest request in
      respondWith (handleRequest_as method request strategy) w.

Definition on_fetch (location_origin : string) (request : Request)
  : World -> PageOutcome * World :=
  on_fetch_as "GET" location_origin request.

(** The install listener: the waiting phase is skipped; no namespace is
    opened. *)
Definition on_install : Promise unit :=
  perform console_log ["[SW] Installing service worker..."];
  perform skipWaiting;
  console_log ["[SW] Installation complete"].

(** The callback mapped over the namespace names by the activate
    listener: a deletion is started for every name but [current]. *)
Definition sweep_one (current cacheName : string) : Promise (option bool) :=
  if negb (String.eqb cacheName current) then
    perform console_log ["[SW] Deleting old cache:"; cacheName];
    await deleted <- caches_delete cacheName;
    resolve (Some deleted)
  else resolve None.

(** The promise handed to [event.waitUntil] by the activate listener, for
    the namespace [current] of the version being activated. *)
Definition activate_sweep (current : string) : Promise unit :=
  await cacheNames <- caches_keys;
  perform Promise_all (List.map (sweep_one current) cacheNames);
  perform console_log ["[SW] Activation complete"];
  clients_claim.

Definition on_activate_version (version : string) : Promise unit :=
  perform console_log ["[SW] Activating service worker..."];
  activate_sweep (cache_name_of version).

Definition on_activate : Promise unit := on_activate_version CACHE_VERSION.

(** [event.data] of a message event. *)
Record MessageData := mkMessage {
  type : string;
  urls : list string
}.

Definition on_message (data : option MessageData) : Promise unit :=
  perform (match data with
           | Some d => if String.eqb (type d) "SKIP_WAITING" then skipWaiting else resolve tt
           | None => resolve tt
           end);
  match data with
  | Some d =>
      if String.eqb (type d) "CACHE_URLS" then
        let urlsToCache := urls d in
        unawaited
          (catch
             (await cache <- caches_open CACHE_NAME;
              perform cache_addAll cache urlsToCache;
              postMessage (mkReply true None))
             (fun error =>
                perform console_error ["[SW] Cache URLs failed:"; message error];
                postMessage (mkReply false (Some (message error)))))
      else resolve tt
  | None => resolve tt
  end.

(** ** Observations on a world *)

(** The world once [caches.open(name)] has settled. *)
Definition opened (name : string) (w : World) : World := snd (caches_open name w).

Definition is_fetch (e : Event) : bool :=
  match e with Fetched _ => true | _ => false end.

(** The network call counter. *)
Definition network_calls (w : World) : nat := length (List.filter is_fetch (trace w)).

Definition is_fulfilled {A} (s : Settled A) : bool :=
  match s with Fulfilled _ => true | Rejected _ => false end.

(** A URL whose fetch is fulfilled with an ok response that the store
    takes. *)
Definition fetches_ok (w : World) (u : string) (r : Response) : Prop :=
  network w u = Fulfilled r /\ stores "GET" r = true.

(** The clients have been claimed. *)
Definition claimed (w : World) : bool :=
  existsb (fun e => match e with Claimed => true | _ => false end) (trace w).

(** The three strategy executors. *)
Definition executors : list (Request -> Promise (option Response)) :=
  [cacheFirst; networkFirst; staleWhileRevalidate].

(** The three strategy executors, for requests of any method. *)
Definition executors_as : list (string -> Request -> Promise (option Response)) :=
  [cacheFirst_as; networkFirst_as; staleWhileRevalidate_as].

(** What an unawaited [cache.put] of a fetched response leaves: the entry
    when the response is ok and the store takes it, and otherwise the world
    as it was, the rejection of the write going nowhere. *)
Definition after_put (method key : string) (r : Response) (w : World) : World :=
  if stores method r then put_entry CACHE_NAME key (clone r) w else w.

(** The world when the background chain of a stale-while-revalidate
    request starts: the fetch was issued, the function returned, the fetch
    settled. *)
Definition revalidating (cachedResponse : option Response) (key : string) (w : World)
  : World :=
  set_timeline (FetchSettled key :: Returned cachedResponse :: Issued key :: timeline w)
    (emit (Fetched key) (opened CACHE_NAME w)).

(** ** Vocabulary of the specification *)

(** [c] occurs in [s]. *)
Fixpoint occurs (c : ascii) (s : string) : bool :=
  match s with
  | EmptyString => false
  | String d rest => Ascii.eqb d c || occurs c rest
  end.

(** [s] contains an upper-case ASCII letter. *)
Fixpoint has_upper (s : string) : bool :=
  match s with
  | EmptyString => false
  | String c rest =>
      ((65 <=? N_of_ascii c) && (N_of_ascii c <=? 90))%N || has_upper rest
  end.

(** [needle] is a substring of [s]. *)
Definition Substring (needle s : string) : Prop :=
  exists pre post, s = pre +:+ needle +:+ post.

(** The Accept header indicates HTML. *)
Definition indicates_html (request : Request) : Prop :=
  exists accept, headers_get "accept" (headers request) = Some accept /\
                 Substring "text/html" accept.

(** The URL path's final extension, in the specification's sense: what
    follows the last '.' of the path.  A path without a '.' has none.
    This is worded from the specification and does not go through the
    script's [extension]. *)
Definition final_extension (path ext : string) : Prop :=
  exists stem, path = stem +:+ "." +:+ ext /\ occurs "." ext = false.

Definition has_extension (request : Request) (ext : string) : Prop :=
  final_extension (pathname (url request)) ext.

(** The first rule of the classifier applies. *)
Definition html_rule (request : Request) : Prop :=
  indicates_html request \/ has_extension request "html".

(** The classifier as the specification words it: five rules in priority
    order, each later rule guarded by the failure of the earlier ones. *)
Inductive classifies (request : Request) : string -> Prop :=
| classifies_html :
    html_rule request ->
    classifies request "network-first"
| classifies_css :
    ~ html_rule request ->
    has_extension request "css" ->
    classifies request "stale-while-revalidate"
| classifies_js :
    ~ html_rule request ->
    ~ has_extension request "css" ->
    has_extension request "js" ->
    classifies request "stale-while-revalidate"
| classifies_image ext :
    ~ html_rule request ->
    ~ has_extension request "css" ->
    ~ has_extension request "js" ->
    has_extension request ext ->
    ext ∈ ["jpg"; "jpeg"; "png"; "gif"; "webp"; "svg"] ->
    classifies request "cache-first"
| classifies_default :
    ~ html_rule request ->
    ~ has_extension request "css" ->
    ~ has_extension request "js" ->
    (forall ext, has_extension request ext ->
                 ext ∉ ["jpg"; "jpeg"; "png"; "gif"; "webp"; "svg"]) ->
    classifies request "network-first".

(** ** Sample requests and worlds *)

(** A same-origin request for [path], with an optional Accept header. *)
Definition get (path : string) (accept : option string) : Request :=
  {| url := mkURL "https://example.test" path "";
     headers := match accept with Some a => [("Accept", a)] | None => [] end |}.

(** The error a browser rejects a fetch with when the network is down. *)
Definition failed_to_fetch : Error := mkError "TypeError" "Failed to fetch".

Definition offline : string -> Settled Response := fun _ => Rejected failed_to_fetch.

Definition page (code : Z) (text : string) : Response :=
  mkResponse code "" [("content-type", "text/plain")] text.

Definition serving (target : string) (r : Response) : string -> Settled Response :=
  fun u => if String.eqb u target then Fulfilled r else Rejected failed_to_fetch.

Definition fresh_world (net : string -> Settled Response) : World :=
  {| network := net; delete_failure := fun _ => None;
     request_failed := mkError "TypeError" "Request failed";
     batch_conflict := mkError "InvalidStateError" "duplicate requests";
     storage := ∅; trace := []; timeline := [] |}.

Definition with_namespaces (names : list string) (w : World) : World :=
  set_storage (list_to_map (List.map (fun n => (n, ∅)) names)) w.

Definition failing_delete (bad : string) (w : World) : World :=
  {| network := network w;
     delete_failure := fun n =>
       if String.eqb n bad then Some (mkError "UnknownError" "delete failed")
       else None;
     request_failed := request_failed w; batch_conflict := batch_conflict w;
     storage := storage w; trace := trace w; timeline := timeline w |}.

Definition app_js : Request := get "/app.js" None.
Definition app_js_url : string := href (url app_js).

(** The network serves the script as v2.js; nothing is cached. *)
Definition online_world : World :=
  fresh_world (serving app_js_url (page 200 "v2.js")).

(** The network serves v2.js while v1.js is cached. *)
Definition stale_world : World :=
  put_entry CACHE_NAME app_js_url (page 200 "v1.js") online_world.

(** No network, nothing cached. *)
Definition offline_world : World := fresh_world offline.

(** No network, v1.js cached. *)
Definition offline_cached_world : World :=
  put_entry CACHE_NAME app_js_url (page 200 "v1.js") offline_world.

(** The server answers the script's URL with 404. *)
Definition not_found_world : World :=
  fresh_world (serving app_js_url (page 404 "Not Found")).

(** An ok response that the cache store refuses: partial content. *)
Definition partial_content : Response := page 206 "v2.js".

(** An ok response that the cache store refuses: Vary: *. *)
Definition varying : Response :=
  mkResponse 200 "" [("content-type", "text/plain"); ("Vary", "Accept-Encoding, *")] "v2.js".

(** The server answers the script's URL with a 206; nothing is cached. *)
Definition partial_world : World :=
  fresh_world (serving app_js_url partial_content).

(** The server answers the script's URL with a 206 while v1.js is cached. *)
Definition stale_partial_world : World :=
  put_entry CACHE_NAME app_js_url (page 200 "v1.js") partial_world.

(** The server answers the script's URL with Vary: *; nothing is cached. *)
Definition varying_world : World :=
  fresh_world (serving app_js_url varying).

(** Only the namespace of version v1 exists. *)
Definition only_v1_world : World :=
  with_namespaces [cache_name_of "v1"] offline_world.

(** The namespaces of versions v1 and v2 exist. *)
Definition two_versions_world : World :=
  with_namespaces [cache_name_of "v1"; cache_name_of "v2"] offline_world.

(** Three stale namespaces next to the one of v2; deleting "other" fails. *)
Definition failing_world : World :=
  failing_delete "other"
    (with_namespaces [cache_name_of "v1"; "other"; "zzz"; cache_name_of "v2"]
       offline_world).

(** ** Further observations *)

(** The same world with another network behind it. *)
Definition with_network (net : string -> Settled Response) (w : World) : World :=
  {| network := net; delete_failure := delete_failure w;
     request_failed := request_failed w; batch_conflict := batch_conflict w;
     storage := storage w; trace := trace w; timeline := timeline w |}.

(** The replies posted on the message port so far, most recent first. *)
Fixpoint posted (events : list Event) : list Reply :=
  match events with
  | [] => []
  | Posted reply :: rest => reply :: posted rest
  | _ :: rest => posted rest
  end.

Definition replies (w : World) : list Reply := posted (trace w).

(** The namespaces whose deletion was started so far. *)
Fixpoint deletions (events : list Event) : list string :=
  match events with
  | [] => []
  | Deleting name :: rest => name :: deletions rest
  | _ :: rest => deletions rest
  end.

(** ** The peripheral listeners of the worker: sync, push, notification click *)

(** [x || fallback], for [x] a string, [null] or [undefined]: the empty
    string is falsy. *)
Definition or_else (x : option string) (fallback : string) : string :=
  match x with
  | Some EmptyString => fallback
  | Some s => s
  | None => fallback
  end.

Module Notifications.

(** What [event.data.json()] gives when it is an object whose recognised
    fields are each absent or a string. *)
Record Payload := mkPayload {
  title : option string;
  body : option string;
  url : option string
}.

(** The value of a field of parsed JSON: a string, or any other value
    (null, a boolean, a number, an array, an object) with its truthiness
    and what converting it to a string gives.  The conversion of an object
    can throw. *)
Inductive Value :=
| Text (s : string)
| Other (truthy : bool) (rendered : Settled string).

Definition truthy_value (v : Value) : bool :=
  match v with
  | Text s => negb (String.eqb s "")
  | Other truthy _ => truthy
  end.

Definition render (v : Value) : Settled string :=
  match v with
  | Text s => Fulfilled s
  | Other _ rendered => rendered
  end.

(** What [event.data.json()] can give: null, or any other value, with what
    reading its title, body and url gives ([None] for [undefined], which
    is what every field of a boolean, a number, a string or an array
    reads as). *)
Inductive Json :=
| Null
| Object (t b u : option Value).

(** [event.data] of a push event: [null]; data whose [json()] throws or
    gives a payload of strings; data whose [json()] gives any value. *)
Inductive PushData :=
| NoData
| Data (json : Settled Payload)
| Parsed (value : Json).

Definition fields (d : Payload) : Json :=
  Object (Text <$> title d) (Text <$> body d) (Text <$> url d).

(** [event.data ? event.data.json() : {}]. *)
Definition parsed (data : PushData) : Settled Json :=
  match data with
  | NoData => Fulfilled (Object None None None)
  | Data (Fulfilled d) => Fulfilled (fields d)
  | Data (Rejected e) => Rejected e
  | Parsed value => Fulfilled value
  end.

(** [x || fallback] for a field [x]: the field itself when it is truthy. *)
Definition value_or (x : option Value) (fallback : string) : Value :=
  match x with
  | Some v => if truthy_value v then v else Text fallback
  | None => Text fallback
  end.

(** The TypeError of reading a property of [null], in V8's words. *)
Definition null_read : Error :=
  mkError "TypeError" "Cannot read properties of null (reading 'body')".

(** The options object the listener builds. *)
Record Options := mkOptions {
  options_body : Value;
  options_icon : string;
  options_badge : string;
  options_vibrate : list Z;
  options_data_url : Value
}.

(** A notification as shown: title and body are strings by then, the data
    is a copy of what the listener passed. *)
Record Notification := mkNotification {
  shown_title : string;
  shown_body : string;
  icon : string;
  badge : string;
  vibrate : list Z;
  data_url : Value
}.

Inductive ShellEvent :=
| Shown (n : Notification)
| Closed (n : Notification)
| OpenedWindow (target : string)
| Logged (line : string).

(** The part of the platform these listeners act on: the notification
    permission and what happened so far, most recent first. *)
Record Shell := mkShell {
  permission : bool;
  happened : list ShellEvent
}.

Definition record (e : ShellEvent) (s : Shell) : Shell :=
  {| permission := permission s; happened := e :: happened s |}.

(** [self.registration.showNotification(title, options)]: the title and
    the body are converted to strings, and a conversion that throws
    rejects the promise; so does a missing permission. *)
Definition showNotification (title : Value) (options : Options) (s : Shell)
  : Settled unit * Shell :=
  match render title with
  | Rejected e => (Rejected e, s)
  | Fulfilled shown_title =>
      match render (options_body options) with
      | Rejected e => (Rejected e, s)
      | Fulfilled shown_body =>
          if permission s then
            (Fulfilled tt,
             record (Shown {| shown_title := shown_title;
                              shown_body := shown_body;
                              icon := options_icon options;
                              badge := options_badge options;
                              vibrate := options_vibrate options;
                              data_url := options_data_url options |}) s)
          else
            (Rejected (mkError "TypeError" "No notification permission has been granted"),
             s)
      end
  end.

(** The push listener; a [json()] that throws makes the listener throw,
    and so does reading [data.body] when [json()] gave [null]. *)
Definition on_push (data : PushData) (s : Shell) : Settled unit * Shell :=
  match parsed data with
  | Rejected e => (Rejected e, s)
  | Fulfilled Null => (Rejected null_read, s)
  | Fulfilled (Object t b u) =>
      let options :=
        {| options_body := value_or b "New TypeScript snippet available!";
           options_icon := "/icon-192.png";
           options_badge := "/badge-72.png";
           options_vibrate := [200; 100; 200];
           options_data_url := value_or u "/" |} in
      showNotification (value_or t "TS Snippets") options s
  end.

(** The notificationclick listener: the notification is closed and a
    window is opened at the URL it carries, converted to a string. *)
Definition on_notificationclick (n : Notification) (s : Shell) : Settled unit * Shell :=
  let s := record (Closed n) s in
  match render (data_url n) with
  | Fulfilled target => (Fulfilled tt, record (OpenedWindow target) s)
  | Rejected e => (Rejected e, s)
  end.

Definition syncData (s : Shell) : Settled unit * Shell :=
  (Fulfilled tt, record (Logged "[SW] Background sync triggered") s).

(** The sync listener. *)
Definition on_sync (tag : string) (s : Shell) : Settled unit * Shell :=
  if String.eqb tag "sync-snippets" then syncData s else (Fulfilled tt, s).

End Notifications.

(** * The page script: theme and clipboard *)

Module ThemeManager.

(** What the theme manager reads and writes in the browser. *)
Record Page := mkPage {
  stored_theme : option string;
  system_dark : bool;
  data_theme : option string;
  has_toggle : bool
}.

(** A theme manager object, in its page. *)
Record t := mk {
  theme : string;
  page : Page
}.

Definition system_theme (dark : bool) : string := if dark then "dark" else "light".

Definition getInitialTheme (p : Page) : string :=
  match stored_theme p with
  | Some EmptyString => system_theme (system_dark p)
  | Some savedTheme => savedTheme
  | None => system_theme (system_dark p)
  end.

Definition applyTheme (new_theme : string) (m : t) : t :=
  {| theme := new_theme;
     page := {| stored_theme := stored_theme (page m);
                system_dark := system_dark (page m);
                data_theme := Some new_theme;
                has_toggle := has_toggle (page m) |} |}.

Definition setItem (value : string) (m : t) : t :=
  {| theme := theme m;
     page := {| stored_theme := Some value;
                system_dark := system_dark (page m);
                data_theme := data_theme (page m);
                has_toggle := has_toggle (page m) |} |}.

Definition toggleTheme (m : t) : t :=
  let newTheme := if String.eqb (theme m) "light" then "dark" else "light" in
  setItem newTheme (applyTheme newTheme m).

(** [new ThemeManager()]. *)
Definition new (p : Page) : t :=
  applyTheme (getInitialTheme p) {| theme := getInitialTheme p; page := p |}.

(** What can happen to a page once the handlers are bound. *)
Inductive Event :=
| Click
| SystemChange (dark : bool).

(** The click handler is bound only when the toggle element exists. *)
Definition on_click (m : t) : t :=
  if has_toggle (page m) then toggleTheme m else m.

(** The system preference becomes [dark] and the change handler runs: it
    follows the system only while no theme is stored. *)
Definition on_system_change (dark : bool) (m : t) : t :=
  let m1 := {| theme := theme m;
               page := {| stored_theme := stored_theme (page m);
                          system_dark := dark;
                          data_theme := data_theme (page m);
                          has_toggle := has_toggle (page m) |} |} in
  match stored_theme (page m) with
  | Some EmptyString => applyTheme (system_theme dark) m1
  | Some _ => m1
  | None => applyTheme (system_theme dark) m1
  end.

Definition step (m : t) (e : Event) : t :=
  match e with
  | Click => on_click m
  | SystemChange dark => on_system_change dark m
  end.

Definition run (m : t) (events : list Event) : t := fold_left step events m.

End ThemeManager.

(** What every handler of the theme manager keeps true: the attribute
    shows the theme, and the theme is the one a reload would pick. *)
Definition theme_consistent (m : ThemeManager.t) : Prop :=
  ThemeManager.data_theme (ThemeManager.page m) = Some (ThemeManager.theme m) /\
  ThemeManager.theme m = ThemeManager.getInitialTheme (ThemeManager.page m).

Module ClipboardManager.

(** A code element: its data-original-code attribute, its text content
    and whether it has the language-typescript class. *)
Record CodeBlock := mkBlock {
  original : option string;
  text : string;
  typescript : bool
}.

(** A copy button: its data-code-block attribute, the text of its
    .copy-text child if it has one, the copied class and the aria-label. *)
Record Button := mkButton {
  target : option string;
  label : option string;
  copied : bool;
  aria_label : option string
}.

(** The document and the browser, as far as the clipboard code goes: code
    elements by the id of their container, buttons by name, the clipboard
    and whether writing to it works, alerts and console errors (most recent
    first) and the pending timers, oldest first, each with the button and
    the text it will put back.  [query_other] is what
    [document.querySelector] does with the selector built from an id that
    is not a CSS identifier: it throws a SyntaxError, or gives the element
    that selector happens to select, or null. *)
Record Page := mkPage {
  blocks : gmap string CodeBlock;
  buttons : gmap string Button;
  clipboard : option string;
  clipboard_works : bool;
  alerts : list string;
  errors : list string;
  timers : list (string * string);
  query_other : string -> Settled (option CodeBlock)
}.

Definition set_blocks (b : gmap string CodeBlock) (p : Page) : Page :=
  {| blocks := b; buttons := buttons p; clipboard := clipboard p;
     clipboard_works := clipboard_works p; alerts := alerts p;
     errors := errors p; timers := timers p; query_other := query_other p |}.

Definition set_buttons (b : gmap string Button) (p : Page) : Page :=
  {| blocks := blocks p; buttons := b; clipboard := clipboard p;
     clipboard_works := clipboard_works p; alerts := alerts p;
     errors := errors p; timers := timers p; query_other := query_other p |}.

Definition set_timers (t : list (string * string)) (p : Page) : Page :=
  {| blocks := blocks p; buttons := buttons p; clipboard := clipboard p;
     clipboard_works := clipboard_works p; alerts := alerts p;
     errors := errors p; timers := t; query_other := query_other p |}.

Definition writeText (code : string) (p : Page) : Page :=
  {| blocks := blocks p; buttons := buttons p; clipboard := Some code;
     clipboard_works := clipboard_works p; alerts := alerts p;
     errors := errors p; timers := timers p; query_other := query_other p |}.

(** The catch block of [copyCode]. *)
Definition copy_failed (p : Page) : Page :=
  {| blocks := blocks p; buttons := buttons p; clipboard := clipboard p;
     clipboard_works := clipboard_works p;
     alerts := "Please copy the code manually (Ctrl+C / Cmd+C)" :: alerts p;
     errors := "Failed to copy code:" :: errors p; timers := timers p;
     query_other := query_other p |}.

(** A CSS identifier written without escapes: letters, digits, '_', '-'
    and characters outside ASCII, not starting with a digit nor with a
    '-' that a digit or nothing follows. *)
Definition name_start (c : ascii) : bool :=
  let n := N_of_ascii c in
  ((65 <=? n) && (n <=? 90) || (97 <=? n) && (n <=? 122) || (n =? 95) || (128 <=? n))%N.

Definition name_char (c : ascii) : bool :=
  let n := N_of_ascii c in
  (name_start c || (48 <=? n) && (n <=? 57) || (n =? 45))%N.

Fixpoint name_chars (s : string) : bool :=
  match s with
  | EmptyString => true
  | String c rest => name_char c && name_chars rest
  end.

Definition css_identifier (s : string) : bool :=
  match s with
  | EmptyString => false
  | String c rest =>
      (if Ascii.eqb c "-"
       then match rest with
            | String d _ => name_start d || Ascii.eqb d "-"
            | EmptyString => false
            end
       else name_start c)
      && name_chars rest
  end.

(** [document.querySelector(`#${codeBlockId} code`)]: for an id that is a
    CSS identifier the selector names the code element in the container
    with that id; for any other id the selector means something else, or
    nothing. *)
Definition querySelector_code (codeBlockId : string) (p : Page)
  : Settled (option CodeBlock) :=
  if css_identifier codeBlockId then Fulfilled (blocks p !! codeBlockId)
  else query_other p codeBlockId.

(** [initSyntaxHighlighting], without the external highlighter: every
    typescript code element that has no data-original-code attribute gets
    its text content as that attribute. *)
Definition remember_original (b : CodeBlock) : CodeBlock :=
  if typescript b then
    match original b with
    | Some _ => b
    | None => {| original := Some (text b); text := text b; typescript := typescript b |}
    end
  else b.

Definition initSyntaxHighlighting (p : Page) : Page :=
  set_blocks (remember_original <$> blocks p) p.

(** [showCopiedState(button)]: [None] when the button has no .copy-text
    child, in which case reading its text throws. *)
Definition showCopiedState (name : string) (button : Button) (p : Page) : option Page :=
  match label button with
  | None => None
  | Some originalText =>
      Some (set_timers (timers p ++ [(name, originalText)])%list
              (set_buttons
                 (<[name := {| target := target button;
                               label := Some "Copied!";
                               copied := true;
                               aria_label := Some "Code copied to clipboard" |}]>
                    (buttons p)) p))
  end.

(** [copyCode(button)] for the button called [name], run to completion.
    The selector is built and queried before the [try]: when the query
    throws, the promise is rejected and the catch block is not run. *)
Definition copyCode (name : string) (p : Page) : Settled unit * Page :=
  match buttons p !! name with
  | None => (Fulfilled tt, p)
  | Some button =>
      let codeBlockId := match target button with Some id => id | None => "null" end in
      match querySelector_code codeBlockId p with
      | Rejected e => (Rejected e, p)
      | Fulfilled None => (Fulfilled tt, p)
      | Fulfilled (Some codeBlock) =>
          let code := or_else (original codeBlock) (text codeBlock) in
          (Fulfilled tt,
           if clipboard_works p then
             match showCopiedState name button (writeText code p) with
             | Some p' => p'
             | None => copy_failed (writeText code p)
             end
           else copy_failed p)
      end
  end.

(** The oldest pending timer fires. *)
Definition timeout (p : Page) : Page :=
  match timers p with
  | [] => p
  | (name, originalText) :: rest =>
      match buttons p !! name with
      | None => set_timers rest p
      | Some button =>
          set_timers rest
            (set_buttons
               (<[name := {| target := target button;
                             label := Some originalText;
                             copied := false;
                             aria_label := Some "Copy code to clipboard" |}]>
                  (buttons p)) p)
      end
  end.

(** The text of a code element changes, as a highlighter or any other
    script may cause. *)
Definition retext (id new_text : string) (p : Page) : Page :=
  match blocks p !! id with
  | None => p
  | Some b =>
      set_blocks (<[id := {| original := original b; text := new_text;
                             typescript := typescript b |}]> (blocks p)) p
  end.

End ClipboardManager.

(** ** Sample shells and pages *)

Definition granted_shell : Notifications.Shell := Notifications.mkShell true [].

Definition sample_payload : Notifications.Payload :=
  Notifications.mkPayload (Some "New snippet") None (Some "/snippets/pick").

(** A page with a toggle, nothing stored, the system preferring dark. *)
Definition dark_system_page : ThemeManager.Page :=
  ThemeManager.mkPage None true None true.

Definition sample_block : ClipboardManager.CodeBlock :=
  ClipboardManager.mkBlock None "type Nullable<T> = T | null" true.

Definition sample_button : ClipboardManager.Button :=
  ClipboardManager.mkButton (Some "snippet-1") (Some "Copy") false
    (Some "Copy code to clipboard").

(** One code element and its copy button; the clipboard works. *)
Definition sample_page : ClipboardManager.Page :=
  ClipboardManager.mkPage {["snippet-1" := sample_block]}
    {["copy-1" := sample_button]} None true [] [] []
    (fun _ => Rejected (mkError "SyntaxError" "not a valid selector")).

(** The same page with a clipboard that refuses to be written. *)
Definition locked_page : ClipboardManager.Page :=
  ClipboardManager.mkPage {["snippet-1" := sample_block]}
    {["copy-1" := sample_button]} None false [] [] []
    (fun _ => Rejected (mkError "SyntaxError" "not a valid selector")).

(** A page whose copy button names the container by an id with a dot in
    it, which the selector built from it does not parse with. *)
Definition dotted_page : ClipboardManager.Page :=
  ClipboardManager.mkPage {["snippet.1" := sample_block]}
    {["copy-1" := ClipboardManager.mkButton (Some "snippet.1") (Some "Copy") false
                    (Some "Copy code to clipboard")]}
    None true [] [] []
    (fun _ => Rejected (mkError "SyntaxError" "not a valid selector")).

(** A push payload whose title is an empty array: truthy, and the empty
    string once converted. *)
Definition array_title : Notifications.PushData :=
  Notifications.Parsed
    (Notifications.Object (Some (Notifications.Other true (Fulfilled ""))) None None).

(** * Properties *)

(** ** Strings *)

Lemma prefix_spec (p s : string) :
  String.prefix p s = true <-> exists post, s = p +:+ post.
Proof.
  revert s; induction p as [|c p IH]; intros s.
  - destruct s; simpl; (split; [intros _; eexists; reflexivity | reflexivity]).
  - destruct s as [|d s]; simpl.
    + split; [discriminate | intros [post H]; discriminate].
    + destruct (ascii_dec c d) as [->|Hne].
      * rewrite IH. split; intros [post H]; exists post.
        -- now rewrite H.
        -- now inversion H.
      * split; [discriminate | intros [post H]; inversion H; congruence].
Qed.

Lemma includes_unfold (needle s : string) :
  Js.includes needle s =
  String.prefix needle s ||
  match s with EmptyString => false | String _ rest => Js.includes needle rest end.
Proof. destruct s; reflexivity. Qed.

Lemma includes_spec (needle s : string) :
  Js.includes needle s = true <-> Substring needle s.
Proof.
  unfold Substring. induction s as [|c s IH]; rewrite includes_unfold.
  - rewrite orb_false_r, prefix_spec. split.
    + intros [post H]. exists "", post. exact H.
    + intros ([|d pre] & post & H); simpl in H; [exists post; exact H | discriminate].
  - rewrite orb_true_iff, prefix_spec, IH. split.
    + intros [[post H] | (pre & post & H)].
      * exists "", post. exact H.
      * exists (String c pre), post. simpl. now rewrite H.
    + intros ([|d pre] & post & H); simpl in H.
      * left. exists post. exact H.
      * right. inversion H. exists pre, post. reflexivity.
Qed.

Lemma split_nonempty (sep : ascii) (s : string) : Js.split sep s <> [].
Proof.
  destruct s as [|c s]; simpl; [discriminate|].
  destruct (Ascii.eqb c sep); [discriminate|].
  destruct (Js.split sep s); discriminate.
Qed.

Lemma split_no_sep (sep : ascii) (s : string) :
  occurs sep s = false -> Js.split sep s = [s].
Proof.
  induction s as [|c s IH]; simpl; [reflexivity|].
  intros H. apply orb_false_iff in H as [Hc Hs].
  rewrite Hc, (IH Hs). reflexivity.
Qed.

Lemma split_app (sep : ascii) (stem rest : string) :
  Js.split sep (stem +:+ String sep rest) =
  (Js.split sep stem ++ Js.split sep rest)%list.
Proof.
  induction stem as [|c stem IH]; simpl.
  - now rewrite Ascii.eqb_refl.
  - destruct (Ascii.eqb c sep); [now rewrite IH|].
    rewrite IH. pose proof (split_nonempty sep stem) as Hne.
    destruct (Js.split sep stem); [contradiction | reflexivity].
Qed.

Lemma pop_split_last (sep : ascii) (stem ext : string) :
  occurs sep ext = false ->
  Js.pop (Js.split sep (stem +:+ String sep ext)) = Some ext.
Proof.
  intros H. unfold Js.pop. rewrite split_app, (split_no_sep _ _ H).
  apply last_snoc.
Qed.

Lemma pop_split_whole (sep : ascii) (s : string) :
  occurs sep s = false -> Js.pop (Js.split sep s) = Some s.
Proof. intros H. now rewrite (split_no_sep _ _ H). Qed.

Lemma pop_split_is_Some (sep : ascii) (s : string) :
  is_Some (Js.pop (Js.split sep s)).
Proof.
  unfold Js.pop. pose proof (split_nonempty sep s) as Hne.
  destruct (Js.split sep s) as [|x l] using rev_ind; [contradiction|].
  rewrite last_snoc. eauto.
Qed.

Lemma strict_eq_spec (x : option string) (lit : string) :
  Js.strict_eq x lit = true <-> x = Some lit.
Proof.
  destruct x as [s|]; simpl; [|split; discriminate].
  rewrite String.eqb_eq. split; [now intros -> | now intros [= ->]].
Qed.

Lemma array_includes_spec (a : list string) (x : option string) :
  Js.array_includes a x = true <-> exists s, x = Some s /\ s ∈ a.
Proof.
  destruct x as [s|]; simpl.
  - rewrite existsb_exists. split.
    + intros (y & Hin & Heq). apply String.eqb_eq in Heq as <-.
      exists s. split; [reflexivity | now apply list_elem_of_In].
    + intros (y & [= <-] & Hin). exists s.
      split; [now apply list_elem_of_In | apply String.eqb_refl].
  - split; [discriminate | intros (s & H & _); discriminate].
Qed.

Lemma accepts_html_spec (request : Request) :
  accepts_html request = true <-> indicates_html request.
Proof.
  unfold accepts_html, indicates_html.
  destruct (headers_get "accept" (headers request)) as [accept|].
  - rewrite includes_spec. split.
    + intros H. exists accept. now split.
    + now intros (a & [= <-] & H).
  - split; [discriminate | intros (a & H & _); discriminate].
Qed.

Lemma occurs_decompose (sep : ascii) (s : string) :
  occurs sep s = true ->
  exists stem ext, s = stem +:+ String sep ext /\ occurs sep ext = false.
Proof.
  induction s as [|c s IH]; simpl; [discriminate|].
  destruct (occurs sep s) eqn:Hs.
  - intros _. destruct (IH eq_refl) as (stem & ext & -> & Hext).
    exists (String c stem), ext. now split.
  - rewrite orb_false_r. intros Hc. apply Ascii.eqb_eq in Hc as ->.
    exists "", s. now split.
Qed.

(** ** The strategy classifier *)

Ltac literal_no_upper ext lit H :=
  destruct (String.eqb_spec ext lit) as [->|_]; [discriminate H|].

Lemma upper_extension_network_first (request : Request) (ext : string) :
  extension request = Some ext ->
  has_upper ext = true ->
  getStrategyForRequest request = CACHE_STRATEGIES.NETWORK_FIRST.
Proof.
  intros Hext Hup. unfold getStrategyForRequest. rewrite Hext.
  destruct (accepts_html request); [reflexivity|].
  unfold Js.strict_eq, Js.array_includes, image_extensions, existsb.
  literal_no_upper ext "html" Hup. literal_no_upper ext "css" Hup.
  literal_no_upper ext "js" Hup. literal_no_upper ext "jpg" Hup.
  literal_no_upper ext "jpeg" Hup. literal_no_upper ext "png" Hup.
  literal_no_upper ext "gif" Hup. literal_no_upper ext "webp" Hup.
  literal_no_upper ext "svg" Hup. reflexivity.
Qed.

Lemma slash_extension_network_first (request : Request) (rest : string) :
  extension request = Some (String "/" rest) ->
  getStrategyForRequest request = CACHE_STRATEGIES.NETWORK_FIRST.
Proof.
  intros Hext. unfold getStrategyForRequest. rewrite Hext.
  destruct (accepts_html request); reflexivity.
Qed.

(** The script's [extension] and the specification's final extension
    agree on every extension without a '/', for a path that starts with
    one. *)
Lemma has_extension_extension (request : Request) (ext : string) :
  has_extension request ext -> extension request = Some ext.
Proof.
  intros (stem & Hpath & Hdot). unfold extension. rewrite Hpath.
  now apply pop_split_last.
Qed.

Lemma extension_has_extension (request : Request) (ext : string) :
  String.prefix "/" (pathname (url request)) = true ->
  occurs "/" ext = false ->
  extension request = Some ext -> has_extension request ext.
Proof.
  intros Hslash Hfree Hext. unfold has_extension, final_extension.
  destruct (occurs "." (pathname (url request))) eqn:Hdot.
  - apply occurs_decompose in Hdot as (stem & ext' & Hpath & Hext').
    exists stem. unfold extension in Hext. rewrite Hpath in Hext.
    rewrite (pop_split_last _ _ _ Hext') in Hext. injection Hext as <-.
    now split.
  - exfalso. unfold extension in Hext. rewrite (pop_split_whole _ _ Hdot) in Hext.
    injection Hext as <-. apply prefix_spec in Hslash as [rest Hrest].
    rewrite Hrest in Hfree. discriminate Hfree.
Qed.

Lemma has_extension_iff (request : Request) (ext : string) :
  String.prefix "/" (pathname (url request)) = true ->
  occurs "/" ext = false ->
  extension request = Some ext <-> has_extension request ext.
Proof.
  intros Hslash Hfree. split;
    [now apply extension_has_extension | apply has_extension_extension].
Qed.

Lemma html_rule_spec (request : Request) :
  String.prefix "/" (pathname (url request)) = true ->
  accepts_html request || Js.strict_eq (extension request) "html" = true
  <-> html_rule request.
Proof.
  intros Hslash. unfold html_rule.
  rewrite orb_true_iff, accepts_html_spec, strict_eq_spec.
  now rewrite (has_extension_iff request "html" Hslash).
Qed.

Lemma image_extensions_no_slash (ext : string) :
  ext ∈ image_extensions -> occurs "/" ext = false.
Proof.
  intros H. apply list_elem_of_In in H. simpl in H.
  destruct H as [<-|[<-|[<-|[<-|[<-|[<-|[]]]]]]]; reflexivity.
Qed.

Lemma classifies_sound (request : Request) :
  String.prefix "/" (pathname (url request)) = true ->
  classifies request (getStrategyForRequest request).
Proof.
  intros Hslash. unfold getStrategyForRequest.
  destruct (accepts_html request || Js.strict_eq (extension request) "html") eqn:Hhtml.
  { apply classifies_html. now apply html_rule_spec. }
  assert (Hno : ~ html_rule request).
  { rewrite <- html_rule_spec, Hhtml by exact Hslash. discriminate. }
  destruct (Js.strict_eq (extension request) "css") eqn:Hcss.
  { apply classifies_css; [exact Hno|].
    apply strict_eq_spec in Hcss. now apply has_extension_iff. }
  assert (Hncss : ~ has_extension request "css").
  { intros H%has_extension_extension. apply strict_eq_spec in H. congruence. }
  destruct (Js.strict_eq (extension request) "js") eqn:Hjs.
  { apply classifies_js; [exact Hno | exact Hncss |].
    apply strict_eq_spec in Hjs. now apply has_extension_iff. }
  assert (Hnjs : ~ has_extension request "js").
  { intros H%has_extension_extension. apply strict_eq_spec in H. congruence. }
  destruct (Js.array_includes image_extensions (extension request)) eqn:Himg.
  - apply array_includes_spec in Himg as (ext & Hext & Hin).
    apply (classifies_image request ext); try assumption.
    apply has_extension_iff; [exact Hslash | | exact Hext].
    now apply image_extensions_no_slash.
  - apply classifies_default; try assumption.
    intros ext Hext%has_extension_extension Hin.
    assert (Js.array_includes image_extensions (extension request) = true) as Habs.
    { apply array_includes_spec. eauto. }
    congruence.
Qed.

Lemma classifies_functional (request : Request) (s t : string) :
  classifies request s -> classifies request t -> s = t.
Proof.
  intros Hs Ht.
  inversion Hs as [H1|H1 H2|H1 H2 H3|ext H1 H2 H3 H4 H5|H1 H2 H3 H4];
  inversion Ht as [K1|K1 K2|K1 K2 K3|ext' K1 K2 K3 K4 K5|K1 K2 K3 K4];
  subst; first [reflexivity | contradiction | naive_solver].
Qed.

(** C2. The classifier is a pure function of the request (it lives outside
    the promise monad and reads neither the store nor the network) and,
    for a request whose URL path starts with '/' as the paths of http and
    https URLs do, it returns the one strategy identifier that the five
    rules, read in priority order and with the final extension of the path
    being what follows its last '.', select: network-first when the Accept
    header contains text/html or the final extension is html; else
    stale-while-revalidate for css; else stale-while-revalidate for js;
    else cache-first for jpg, jpeg, png, gif, webp and svg; else
    network-first. *)
Theorem getStrategyForRequest_follows_rules (request : Request) :
  String.prefix "/" (pathname (url request)) = true ->
  classifies request (getStrategyForRequest request) /\
  (forall s, classifies request s -> s = getStrategyForRequest request) /\
  getStrategyForRequest request ∈
    [CACHE_STRATEGIES.CACHE_FIRST; CACHE_STRATEGIES.NETWORK_FIRST;
     CACHE_STRATEGIES.STALE_WHILE_REVALIDATE].
Proof.
  intros Hslash. pose proof (classifies_sound request Hslash) as Hsound.
  split; [exact Hsound|]. split.
  - intros s Hs. exact (classifies_functional request _ _ Hs Hsound).
  - apply list_elem_of_In. destruct Hsound; simpl; auto.
Qed.

(** C10. The extension the classifier looks at is the substring after the
    last '.' of the pathname, and the whole pathname when it has no '.';
    it is compared case-sensitively with lower-case literals, so a request
    whose extension has an upper-case letter, or whose path has no
    extension, is classified network-first (whether or not the Accept
    header contains text/html, which selects network-first as well). *)
Theorem extension_after_last_dot (request : Request) :
  (forall stem ext,
      pathname (url request) = stem +:+ "." +:+ ext ->
      occurs "." ext = false ->
      extension request = Some ext) /\
  (occurs "." (pathname (url request)) = false ->
   extension request = Some (pathname (url request))) /\
  (forall ext,
      extension request = Some ext ->
      has_upper ext = true ->
      getStrategyForRequest request = "network-first") /\
  (occurs "." (pathname (url request)) = false ->
   String.prefix "/" (pathname (url request)) = true ->
   getStrategyForRequest request = "network-first").
Proof.
  repeat split.
  - intros stem ext Hpath Hdot. unfold extension. rewrite Hpath.
    now apply pop_split_last.
  - apply pop_split_whole.
  - apply upper_extension_network_first.
  - intros Hdot Hslash. apply prefix_spec in Hslash as [rest Hrest].
    apply (slash_extension_network_first request rest).
    change (String "/" rest) with ("/" +:+ rest). rewrite <- Hrest.
    now apply pop_split_whole.
Qed.

(** ** The platform operations *)

Lemma caches_open_eq (name : string) (w : World) :
  caches_open name w = (Fulfilled name, opened name w).
Proof. unfold opened, caches_open. now destruct (storage w !! name). Qed.

Lemma entries_opened (cache name : string) (w : World) :
  entries cache (opened name w) = entries cache w.
Proof.
  unfold opened, caches_open, entries.
  destruct (storage w !! name) eqn:Hname; simpl; [reflexivity|].
  destruct (decide (name = cache)) as [->|Hne].
  - now rewrite lookup_insert_eq, Hname.
  - now rewrite lookup_insert_ne.
Qed.

Lemma opened_id (name : string) (w : World) :
  is_Some (storage w !! name) -> opened name w = w.
Proof. intros [c Hc]. unfold opened, caches_open. now rewrite Hc. Qed.

Lemma trace_opened (name : string) (w : World) : trace (opened name w) = trace w.
Proof. unfold opened, caches_open. now destruct (storage w !! name). Qed.

Lemma network_opened (name : string) (w : World) : network (opened name w) = network w.
Proof. unfold opened, caches_open. now destruct (storage w !! name). Qed.

Lemma request_failed_opened (name : string) (w : World) :
  request_failed (opened name w) = request_failed w.
Proof. unfold opened, caches_open. now destruct (storage w !! name). Qed.

Lemma storage_opened_is_Some (name : string) (w : World) :
  is_Some (storage (opened name w) !! name).
Proof.
  unfold opened, caches_open. destruct (storage w !! name) eqn:Hname; simpl.
  - rewrite Hname. eauto.
  - rewrite lookup_insert_eq. eauto.
Qed.

Lemma entries_put_entry (cache key : string) (r : Response) (w : World) :
  entries cache (put_entry cache key r w) = <[key := r]> (entries cache w).
Proof. unfold put_entry, entries at 1. simpl. now rewrite lookup_insert_eq. Qed.

Lemma entries_put_entry_ne (cache other key : string) (r : Response) (w : World) :
  cache <> other -> entries other (put_entry cache key r w) = entries other w.
Proof. intros Hne. unfold put_entry, entries. simpl. now rewrite lookup_insert_ne. Qed.

Lemma entries_is_Some (cache key : string) (w : World) :
  is_Some (entries cache w !! key) -> is_Some (storage w !! cache).
Proof.
  unfold entries. destruct (storage w !! cache); [eauto|].
  simpl. rewrite lookup_empty. intros [? ?]; discriminate.
Qed.

Lemma entries_emit (cache : string) (e : Event) (w : World) :
  entries cache (emit e w) = entries cache w.
Proof. reflexivity. Qed.

Lemma network_calls_emit (e : Event) (w : World) :
  network_calls (emit e w) =
  if is_fetch e then S (network_calls w) else network_calls w.
Proof. unfold network_calls. simpl. now destruct (is_fetch e). Qed.

Lemma network_calls_opened (name : string) (w : World) :
  network_calls (opened name w) = network_calls w.
Proof. unfold network_calls. now rewrite trace_opened. Qed.

Lemma network_calls_put_entry (cache key : string) (r : Response) (w : World) :
  network_calls (put_entry cache key r w) = network_calls w.
Proof. reflexivity. Qed.

Lemma timeline_opened (name : string) (w : World) : timeline (opened name w) = timeline w.
Proof. unfold opened, caches_open. now destruct (storage w !! name). Qed.

Lemma entries_set_timeline (cache : string) (t : list Tick) (w : World) :
  entries cache (set_timeline t w) = entries cache w.
Proof. reflexivity. Qed.

Lemma network_calls_set_timeline (t : list Tick) (w : World) :
  network_calls (set_timeline t w) = network_calls w.
Proof. reflexivity. Qed.

Lemma matched_GET (cache : string) (request : Request) (w : World) :
  matched "GET" cache request w = entries cache w !! href (url request).
Proof. reflexivity. Qed.

Lemma matched_is_entry (method cache : string) (request : Request) (w : World)
    (r : Response) :
  matched method cache request w = Some r ->
  entries cache w !! href (url request) = Some r.
Proof. unfold matched. now destruct (String.eqb method "GET"). Qed.

Lemma matched_opened (method cache name : string) (request : Request) (w : World) :
  matched method cache request (opened name w) = matched method cache request w.
Proof. unfold matched. now rewrite entries_opened. Qed.

Create Rewrite HintDb world.
#[local] Hint Rewrite entries_emit entries_opened trace_opened network_opened request_failed_opened
  entries_put_entry network_calls_emit network_calls_opened
  network_calls_put_entry entries_set_timeline network_calls_set_timeline : world.

(** Unfolds an executor down to the platform's world transformers. *)
Ltac run :=
  unfold cacheFirst, networkFirst, staleWhileRevalidate,
    cacheFirst_as, networkFirst_as, staleWhileRevalidate_as,
    fetchPromise, fetch, fetch_url, fetch_start, tick,
    fetch_settle, bind, catch, unawaited, resolve, cache_match, cache_put,
    cache_match_as, cache_put_as, console_error, console_log;
  rewrite ?caches_open_eq; cbn beta iota.

(** Closes the cases of a property of the world an executor leaves. *)
Ltac settle :=
  cbn [snd fst]; repeat split; intros; simplify_eq;
  autorewrite with world in *; cbn [is_fetch] in *;
  first [reflexivity | lia | congruence | left; reflexivity
        | apply lookup_insert_eq].

(** ** The strategy executors *)

Lemma put_step (method : string) (request : Request) (r : Response) (w : World) :
  (if ok r
   then unawaited (cache_put_as method CACHE_NAME request (clone r))
   else resolve tt) w =
  (Fulfilled tt, after_put method (href (url request)) r w).
Proof.
  unfold after_put, stores, unawaited, cache_put_as, resolve, clone.
  destruct (ok r); [|reflexivity]. cbn. now destruct (storable method r).
Qed.

Lemma cacheFirst_as_run (method : string) (request : Request) (w : World) :
  let key := href (url request) in
  let w1 := emit (Fetched key) (opened CACHE_NAME w) in
  cacheFirst_as method request w =
    match matched method CACHE_NAME request w with
    | Some cached => (Fulfilled (Some cached), opened CACHE_NAME w)
    | None =>
        match network w key with
        | Fulfilled r => (Fulfilled (Some r), after_put method key r w1)
        | Rejected e =>
            (Fulfilled (Some (new_Response offline_text (mkInit 503 "Service Unavailable" []))),
             emit (Console ["[SW] Cache first failed:"; message e]) w1)
        end
    end.
Proof.
  intros key w1. unfold cacheFirst_as, bind. rewrite caches_open_eq.
  unfold cache_match_as at 1. cbn beta iota. rewrite matched_opened.
  destruct (matched method CACHE_NAME request w); [reflexivity|].
  unfold catch, bind, fetch, fetch_url, fetch_start, fetch_settle, bind.
  cbn beta iota. cbn [network emit]. rewrite network_opened. fold key. fold w1.
  destruct (network w key) as [r|e]; [|reflexivity].
  now rewrite put_step.
Qed.

Lemma networkFirst_as_run (method : string) (request : Request) (w : World) :
  let key := href (url request) in
  let w1 := emit (Fetched key) (opened CACHE_NAME w) in
  networkFirst_as method request w =
    match network w key with
    | Fulfilled r => (Fulfilled (Some r), after_put method key r w1)
    | Rejected e =>
        (Fulfilled
           (Some (match matched method CACHE_NAME request w with
                  | Some cached => cached
                  | None => new_Response offline_text
                              (mkInit 503 "Service Unavailable"
                                 [("Content-Type", "text/html")])
                  end)),
         emit (Console ["[SW] Network failed, trying cache:"; message e]) w1)
    end.
Proof.
  intros key w1. unfold networkFirst_as, bind. rewrite caches_open_eq.
  unfold catch, bind, fetch, fetch_url, fetch_start, fetch_settle, bind.
  cbn beta iota. cbn [network emit]. rewrite network_opened. fold key. fold w1.
  destruct (network w key) as [r|e].
  - now rewrite put_step.
  - unfold console_log, cache_match_as. cbn beta iota.
    change (matched method CACHE_NAME request (emit ?e w1))
      with (matched method CACHE_NAME request w1).
    change (matched method CACHE_NAME request w1)
      with (matched method CACHE_NAME request (opened CACHE_NAME w)).
    rewrite matched_opened.
    now destruct (matched method CACHE_NAME request w).
Qed.

Lemma staleWhileRevalidate_as_run (method : string) (request : Request) (w : World) :
  let key := href (url request) in
  let cachedResponse := matched method CACHE_NAME request w in
  let w1 := revalidating cachedResponse key w in
  staleWhileRevalidate_as method request w =
    match network w key with
    | Fulfilled r =>
        (Fulfilled (match cachedResponse with
                    | Some cached => Some cached
                    | None => Some r
                    end),
         after_put method key r w1)
    | Rejected e =>
        (Fulfilled cachedResponse,
         emit (Console ["[SW] Background fetch failed:"; message e]) w1)
    end.
Proof.
  intros key cachedResponse w1. unfold staleWhileRevalidate_as, bind.
  rewrite caches_open_eq.
  unfold cache_match_as at 1. cbn beta iota. rewrite matched_opened.
  fold key. fold cachedResponse.
  unfold fetch_start at 1. unfold tick at 1 2. cbn beta iota.
  unfold fetchPromise, bind, tick. cbn beta iota.
  unfold catch, bind, fetch_settle. cbn beta iota.
  cbn [network emit set_timeline timeline]. rewrite network_opened. fold key.
  rewrite timeline_opened.
  change (set_timeline (FetchSettled key :: _) _) with w1.
  destruct (network w key) as [r|e].
  - rewrite put_step. now destruct cachedResponse.
  - unfold console_log, resolve. cbn beta iota. now destruct cachedResponse.
Qed.

Lemma cacheFirst_hit_run (request : Request) (w : World) (cached : Response) :
  entries CACHE_NAME w !! href (url request) = Some cached ->
  cacheFirst request w = (Fulfilled (Some cached), w).
Proof.
  intros Hhit.
  assert (Hopen : opened CACHE_NAME w = w).
  { apply opened_id. eapply entries_is_Some. rewrite Hhit. eauto. }
  unfold cacheFirst. rewrite cacheFirst_as_run, matched_GET. now rewrite Hhit, Hopen.
Qed.

Lemma cacheFirst_miss_run (request : Request) (w : World) :
  let key := href (url request) in
  let w1 := emit (Fetched key) (opened CACHE_NAME w) in
  entries CACHE_NAME w !! key = None ->
  cacheFirst request w =
    match network w key with
    | Fulfilled r =>
        (Fulfilled (Some r),
         if stores "GET" r then put_entry CACHE_NAME key (clone r) w1 else w1)
    | Rejected e =>
        (Fulfilled (Some (new_Response offline_text (mkInit 503 "Service Unavailable" []))),
         emit (Console ["[SW] Cache first failed:"; message e]) w1)
    end.
Proof.
  intros key w1 Hmiss. unfold cacheFirst. rewrite cacheFirst_as_run, matched_GET.
  fold key. now rewrite Hmiss.
Qed.

Lemma networkFirst_run (request : Request) (w : World) :
  let key := href (url request) in
  let w1 := emit (Fetched key) (opened CACHE_NAME w) in
  networkFirst request w =
    match network w key with
    | Fulfilled r =>
        (Fulfilled (Some r),
         if stores "GET" r then put_entry CACHE_NAME key (clone r) w1 else w1)
    | Rejected e =>
        (Fulfilled
           (Some (match entries CACHE_NAME w !! key with
                  | Some cached => cached
                  | None => new_Response offline_text
                              (mkInit 503 "Service Unavailable"
                                 [("Content-Type", "text/html")])
                  end)),
         emit (Console ["[SW] Network failed, trying cache:"; message e]) w1)
    end.
Proof. intros key w1. unfold networkFirst. now rewrite networkFirst_as_run. Qed.

Lemma staleWhileRevalidate_run (request : Request) (w : World) :
  let key := href (url request) in
  let w1 := revalidating (entries CACHE_NAME w !! key) key w in
  staleWhileRevalidate request w =
    match network w key with
    | Fulfilled r =>
        (Fulfilled (match entries CACHE_NAME w !! key with
                    | Some cached => Some cached
                    | None => Some r
                    end),
         if stores "GET" r then put_entry CACHE_NAME key (clone r) w1 else w1)
    | Rejected e =>
        (Fulfilled (entries CACHE_NAME w !! key),
         emit (Console ["[SW] Background fetch failed:"; message e]) w1)
    end.
Proof.
  intros key w1. unfold staleWhileRevalidate. now rewrite staleWhileRevalidate_as_run.
Qed.

Lemma trace_revalidating (c : option Response) (key : string) (w : World) :
  trace (revalidating c key w) = Fetched key :: trace w.
Proof. unfold revalidating. cbn. now rewrite trace_opened. Qed.

Lemma entries_revalidating (cache : string) (c : option Response) (key : string) (w : World) :
  entries cache (revalidating c key w) = entries cache w.
Proof. unfold revalidating. now rewrite entries_set_timeline, entries_emit, entries_opened. Qed.

Lemma network_calls_revalidating (c : option Response) (key : string) (w : World) :
  network_calls (revalidating c key w) = S (network_calls w).
Proof.
  unfold revalidating.
  now rewrite network_calls_set_timeline, network_calls_emit, network_calls_opened.
Qed.

Lemma network_revalidating (c : option Response) (key : string) (w : World) :
  network (revalidating c key w) = network w.
Proof. unfold revalidating. cbn. now rewrite network_opened. Qed.

#[local] Hint Rewrite trace_revalidating entries_revalidating network_calls_revalidating
  network_revalidating : world.

(** C7. A cache-first request whose key has an entry in the current
    namespace is answered with that entry whatever the network would say,
    and the world is left as it was: the network call counter does not
    move. *)
Theorem cacheFirst_hit_no_network (request : Request) (w : World) (cached : Response) :
  entries CACHE_NAME w !! href (url request) = Some cached ->
  fst (cacheFirst request w) = Fulfilled (Some cached) /\
  network_calls (snd (cacheFirst request w)) = network_calls w /\
  snd (cacheFirst request w) = w.
Proof. intros Hhit. now rewrite (cacheFirst_hit_run _ _ _ Hhit). Qed.


Lemma elem_of_executors (E : Request -> Promise (option Response)) :
  E ∈ executors -> E = cacheFirst \/ E = networkFirst \/ E = staleWhileRevalidate.
Proof.
  intros H. apply list_elem_of_In in H. simpl in H.
  destruct H as [<-|[<-|[<-|[]]]]; auto.
Qed.

Lemma elem_of_executors_as (E : string -> Request -> Promise (option Response)) :
  E ∈ executors_as ->
  E = cacheFirst_as \/ E = networkFirst_as \/ E = staleWhileRevalidate_as.
Proof.
  intros H. apply list_elem_of_In in H. simpl in H.
  destruct H as [<-|[<-|[<-|[]]]]; auto.
Qed.

Lemma storable_spec (method : string) (r : Response) :
  storable method r = true <->
  method = "GET" /\ status r <> 206 /\ vary_star r = false.
Proof.
  unfold storable. rewrite !andb_true_iff, !negb_true_iff, String.eqb_eq, Z.eqb_neq.
  tauto.
Qed.

Lemma after_put_stored (method key : string) (r : Response) (w : World) :
  ok r = true -> storable method r = true ->
  entries CACHE_NAME (after_put method key r w) !! key = Some (clone r).
Proof.
  intros Hok Hst. unfold after_put, stores. rewrite Hok, Hst. cbn.
  rewrite entries_put_entry. apply lookup_insert_eq.
Qed.

Lemma after_put_refused (method key : string) (r : Response) (w : World) :
  ok r = false \/ storable method r = false -> after_put method key r w = w.
Proof.
  intros H. unfold after_put, stores.
  destruct H as [-> | ->]; [reflexivity | now rewrite andb_false_r].
Qed.

Lemma network_calls_after_put (method key : string) (r : Response) (w : World) :
  network_calls (after_put method key r w) = network_calls w.
Proof. unfold after_put. now destruct (stores method r). Qed.

(** Closes the cases of a property of the world an executor leaves after a
    fulfilled fetch. *)
Ltac fulfilled_case :=
  repeat split; intros; simplify_eq;
  rewrite ?network_calls_after_put in *; autorewrite with world in *;
  cbn [is_fetch] in *;
  first [ lia
        | now apply after_put_stored
        | rewrite after_put_refused by assumption; now autorewrite with world
        | now left ].

(** C1, as the code and the cache store have it.  For each of the three
    executors and every request, of whatever method: when the executor
    contacted the network and the fetch was fulfilled with an ok response
    that the store takes (the request is a GET request, the response is
    not a 206 and has no Vary header with the value * in it), the current namespace afterwards holds
    that response's snapshot under the request; when the fetch was
    fulfilled with a response that is not ok or that the store refuses, or
    was rejected, or the network was not contacted at all, the entries of
    the namespace are what they were.  An executor contacts the network at
    most once, and the cache-first executor does so exactly when the cache
    match yields nothing. *)
Theorem network_response_cached_iff_accepted
    (E : string -> Request -> Promise (option Response))
    (method : string) (request : Request) (w : World) :
  E ∈ executors_as ->
  let key := href (url request) in
  let w' := snd (E method request w) in
  (forall r, network_calls w' = S (network_calls w) ->
             network w key = Fulfilled r -> ok r = true -> storable method r = true ->
             entries CACHE_NAME w' !! key = Some (clone r)) /\
  (forall r, network w key = Fulfilled r ->
             ok r = false \/ storable method r = false ->
             entries CACHE_NAME w' = entries CACHE_NAME w) /\
  (forall e, network w key = Rejected e ->
             entries CACHE_NAME w' = entries CACHE_NAME w) /\
  (network_calls w' = network_calls w ->
   entries CACHE_NAME w' = entries CACHE_NAME w) /\
  (network_calls w' = S (network_calls w) \/
   network_calls w' = network_calls w /\ E = cacheFirst_as /\
   is_Some (matched method CACHE_NAME request w)).
Proof.
  intros HE key w'. subst w'.
  apply elem_of_executors_as in HE as [->|[->| ->]].
  - rewrite cacheFirst_as_run. fold key.
    destruct (matched method CACHE_NAME request w) as [cached|] eqn:Hentry.
    + cbn [snd]. autorewrite with world.
      repeat split; try reflexivity; [lia | right; eauto].
    + destruct (network w key) as [r|e]; cbn [snd].
      * fulfilled_case.
      * settle.
  - rewrite networkFirst_as_run. fold key.
    destruct (network w key) as [r|e]; cbn [snd].
    + fulfilled_case.
    + settle.
  - rewrite staleWhileRevalidate_as_run. fold key.
    destruct (network w key) as [r|e]; cbn [snd].
    + fulfilled_case.
    + settle.
Qed.


(** C6, as the code has it.  With no cached entry the caller gets what the
    background chain settles with: the live network response when the
    fetch is fulfilled.  When the fetch is rejected the chain catches and
    logs the failure, with or without a cached entry, so that the executor
    fulfils with the cached entry if there is one and with no response
    otherwise; it never rejects.  With nothing cached the fetch listener
    then answers the page with a network error. *)
Theorem staleWhileRevalidate_outcome (request : Request) (w : World) :
  let key := href (url request) in
  (forall r,
      entries CACHE_NAME w !! key = None -> network w key = Fulfilled r ->
      fst (staleWhileRevalidate request w) = Fulfilled (Some r) /\
      fst (respondWith (staleWhileRevalidate request) w) = Served r) /\
  (forall e,
      network w key = Rejected e ->
      fst (staleWhileRevalidate request w) = Fulfilled (entries CACHE_NAME w !! key) /\
      hd_error (trace (snd (staleWhileRevalidate request w))) =
        Some (Console ["[SW] Background fetch failed:"; message e])) /\
  (forall e,
      entries CACHE_NAME w !! key = None -> network w key = Rejected e ->
      fst (respondWith (staleWhileRevalidate request) w) = NetworkError).
Proof.
  intros key. unfold respondWith. rewrite staleWhileRevalidate_run. fold key.
  split; [|split].
  - intros r Hmiss Hnet. rewrite Hnet, Hmiss. now destruct (stores "GET" r).
  - intros e Hnet. now rewrite Hnet.
  - intros e Hmiss Hnet. now rewrite Hnet, Hmiss.
Qed.

(** ** Activation *)

(** Membership in lists built with cons, append and nil. *)
Ltac list_solver :=
  rewrite ?elem_of_app, ?elem_of_cons, ?elem_of_nil in *; naive_solver.

Lemma Promise_all_cons {A} (p : Promise A) (ps : list (Promise A)) (w : World) :
  snd (Promise_all (p :: ps) w) = snd (Promise_all ps (snd (p w))) /\
  is_fulfilled (fst (Promise_all (p :: ps) w)) =
    is_fulfilled (fst (p w)) && is_fulfilled (fst (Promise_all ps (snd (p w)))).
Proof.
  simpl. destruct (p w) as [r w1]. simpl.
  destruct (Promise_all ps w1) as [rs w2]. simpl. now destruct r, rs.
Qed.

Lemma sweep_one_run (current n : string) (w : World) :
  sweep_one current n w =
    if String.eqb n current then (Fulfilled None, w)
    else
      let w1 := emit (Deleting n) (emit (Console ["[SW] Deleting old cache:"; n]) w) in
      match delete_failure w n with
      | Some e => (Rejected e, w1)
      | None =>
          (Fulfilled (Some (bool_decide (is_Some (storage w !! n)))),
           set_storage (delete n (storage w)) w1)
      end.
Proof.
  unfold sweep_one. destruct (String.eqb n current); [reflexivity|].
  unfold bind, console_log, caches_delete, resolve. cbn.
  now destruct (delete_failure w n).
Qed.

(** What one member of the sweep does, whatever the other members do. *)
Lemma sweep_one_spec (current n : string) (w : World) :
  let rw := sweep_one current n w in
  delete_failure (snd rw) = delete_failure w /\
  trace (snd rw) =
    ((if String.eqb n current then []
      else [Deleting n; Console ["[SW] Deleting old cache:"; n]]) ++ trace w)%list /\
  (forall m, storage (snd rw) !! m =
             if decide (m = n /\ n <> current /\ delete_failure w n = None)
             then None else storage w !! m) /\
  (is_fulfilled (fst rw) = true <-> (n <> current -> delete_failure w n = None)).
Proof.
  cbn zeta. rewrite sweep_one_run.
  destruct (String.eqb_spec n current) as [->|Hne].
  - cbn. repeat split; try tauto.
    intros m. case_decide; [tauto | reflexivity].
  - destruct (delete_failure w n) as [e|] eqn:Hdel; cbn.
    + repeat split; try discriminate.
      * intros m. case_decide as Hd; [|reflexivity].
        destruct Hd as (_ & _ & Hd). discriminate.
      * intros H. specialize (H Hne). discriminate.
    + repeat split; try reflexivity.
      intros m. case_decide as Hd.
      * destruct Hd as (-> & _). apply lookup_delete_eq.
      * apply lookup_delete_ne. intros <-. tauto.
Qed.

Lemma sweep_spec (current : string) (names : list string) (w : World) :
  let rw := Promise_all (List.map (sweep_one current) names) w in
  exists evs,
    trace (snd rw) = (evs ++ trace w)%list /\
    (Claimed ∉ evs) /\
    (Console ["[SW] Activation complete"] ∉ evs) /\
    (forall n, Deleting n ∈ evs <-> n ∈ names /\ n <> current) /\
    delete_failure (snd rw) = delete_failure w /\
    (forall m, storage (snd rw) !! m =
               if decide (m ∈ names /\ m <> current /\ delete_failure w m = None)
               then None else storage w !! m) /\
    (is_fulfilled (fst rw) = true <->
     forall n, n ∈ names -> n <> current -> delete_failure w n = None).
Proof.
  revert w. induction names as [|a names IH]; intros w rw.
  - exists []. subst rw. cbn.
    split; [reflexivity|]. split; [apply not_elem_of_nil|].
    split; [apply not_elem_of_nil|]. split; [|split; [reflexivity|split]].
    + intros n. split; [intros H | intros [H _]]; now apply elem_of_nil in H.
    + intros m. case_decide as Hd; [|reflexivity].
      destruct Hd as [Hd _]. now apply elem_of_nil in Hd.
    + split; [|reflexivity]. intros _ n Hn. now apply elem_of_nil in Hn.
  - subst rw. cbn [List.map].
    destruct (Promise_all_cons (sweep_one current a)
                (List.map (sweep_one current) names) w) as [-> Hful].
    rewrite Hful. clear Hful.
    destruct (sweep_one_spec current a w) as (Hdf1 & Htr1 & Hst1 & Hok1).
    cbn zeta in Hdf1, Htr1, Hst1, Hok1.
    destruct (IH (snd (sweep_one current a w)))
      as (evs & Htr & Hcl & Hdone & Hdel & Hdf & Hst & Hok).
    cbn zeta in Htr, Hdf, Hst, Hok.
    exists (evs ++ (if String.eqb a current then []
                    else [Deleting a; Console ["[SW] Deleting old cache:"; a]]))%list.
    split; [now rewrite Htr, Htr1, app_assoc|].
    split; [clear -Hcl; destruct (String.eqb a current); list_solver|].
    split; [clear -Hdone; destruct (String.eqb a current); list_solver|].
    split; [|split; [congruence|split]].
    + intros n. rewrite elem_of_app, Hdel, elem_of_cons. clear.
      destruct (String.eqb_spec a current) as [->|Hne]; list_solver.
    + intros m. rewrite Hst, Hst1, Hdf1. clear.
      repeat case_decide; try reflexivity; exfalso; list_solver.
    + rewrite andb_true_iff, Hok1, Hok, Hdf1. clear.
      setoid_rewrite elem_of_cons. naive_solver.
Qed.

Lemma elem_of_keys (m : gmap string (gmap string Response)) (n : string) :
  n ∈ (map_to_list m).*1 <-> is_Some (m !! n).
Proof.
  rewrite list_elem_of_fmap. split.
  - intros ([k v] & -> & Hin). apply elem_of_map_to_list in Hin. eauto.
  - intros [v Hv]. exists (n, v). split; [reflexivity|].
    now apply elem_of_map_to_list.
Qed.

Lemma on_activate_version_run (version : string) (w : World) :
  let current := cache_name_of version in
  let w0 := emit (Console ["[SW] Activating service worker..."]) w in
  let rw := Promise_all (List.map (sweep_one current) (map_to_list (storage w)).*1) w0 in
  on_activate_version version w =
    match fst rw with
    | Fulfilled _ =>
        (Fulfilled tt,
         emit Claimed (emit (Console ["[SW] Activation complete"]) (snd rw)))
    | Rejected e => (Rejected e, snd rw)
    end.
Proof.
  intros current w0 rw.
  unfold on_activate_version, activate_sweep, bind, console_log, caches_keys,
    clients_claim.
  fold current w0. change (storage w0) with (storage w). subst rw.
  destruct (Promise_all _ w0) as [[l|e] w2]; reflexivity.
Qed.

(** C3, as the code has it.  Every stale namespace has its deletion
    started, and a deletion that does not fail itself removes its
    namespace, whatever happens to the other deletions.  The step that
    follows the sweep, however, runs only when every deletion is fulfilled:
    then the handler's promise is fulfilled and the clients are claimed.
    When the deletion of some stale namespace is rejected, the promise
    handed to waitUntil is rejected, completion is not logged and the
    clients are not claimed. *)
Theorem activate_deletions_independent (version : string) (w : World) :
  let current := cache_name_of version in
  let rw := on_activate_version version w in
  exists evs,
    trace (snd rw) = (evs ++ trace w)%list /\
    (forall n, is_Some (storage w !! n) -> n <> current ->
               Deleting n ∈ evs /\
               (delete_failure w n = None -> storage (snd rw) !! n = None)) /\
    ((forall n, is_Some (storage w !! n) -> n <> current ->
                delete_failure w n = None) ->
     fst rw = Fulfilled tt /\ Claimed ∈ evs) /\
    (forall n, is_Some (storage w !! n) -> n <> current ->
               is_Some (delete_failure w n) ->
               (exists e, fst rw = Rejected e) /\
               (Claimed ∉ evs) /\
               (Console ["[SW] Activation complete"] ∉ evs)).
Proof.
  intros current rw. subst rw. rewrite on_activate_version_run. fold current.
  set (w0 := emit (Console ["[SW] Activating service worker..."]) w).
  destruct (sweep_spec current (map_to_list (storage w)).*1 w0)
    as (evs & Htr & Hcl & Hdone & Hdel & Hdf & Hst & Hok).
  cbn zeta in Htr, Hdf, Hst, Hok.
  set (rw := Promise_all _ w0) in *.
  assert (Hall : is_fulfilled (fst rw) = true <->
                 forall n, is_Some (storage w !! n) -> n <> current ->
                           delete_failure w n = None).
  { rewrite Hok. split; intros H n Hn; apply H; now apply elem_of_keys. }
  clear Hok.
  destruct (fst rw) as [l|e] eqn:Hrw; cbn [fst snd is_fulfilled emit trace storage] in *.
  - exists (Claimed :: Console ["[SW] Activation complete"] ::
            evs ++ [Console ["[SW] Activating service worker..."]])%list.
    split; [rewrite Htr; cbn; now rewrite <- app_assoc|].
    split; [|split].
    + intros n Hn Hne. split.
      * rewrite !elem_of_cons, elem_of_app. right. right. left.
        apply Hdel. split; [now apply elem_of_keys | exact Hne].
      * intros Hnone. rewrite Hst. rewrite decide_True; [reflexivity|].
        split; [now apply elem_of_keys | now split].
    + intros _. split; [reflexivity | apply elem_of_cons; now left].
    + intros n Hn Hne [e He]. exfalso.
      destruct Hall as [Hall _]. rewrite (Hall eq_refl n Hn Hne) in He. discriminate.
  - exists (evs ++ [Console ["[SW] Activating service worker..."]])%list.
    split; [rewrite Htr; cbn; now rewrite <- app_assoc|].
    split; [|split].
    + intros n Hn Hne. split.
      * apply elem_of_app. left.
        apply Hdel. split; [now apply elem_of_keys | exact Hne].
      * intros Hnone. rewrite Hst. rewrite decide_True; [reflexivity|].
        split; [now apply elem_of_keys | now split].
    + intros H. apply Hall in H. discriminate.
    + intros n Hn Hne _. split; [eauto|]. clear -Hcl Hdone. split; list_solver.
Qed.

Lemma on_install_keeps_storage (w : World) :
  fst (on_install w) = Fulfilled tt /\ storage (snd (on_install w)) = storage w.
Proof. split; reflexivity. Qed.

Lemma cache_name_of_inj (v1 v2 : string) :
  cache_name_of v1 = cache_name_of v2 -> v1 = v2.
Proof. unfold cache_name_of. cbn. intros H. now simplify_eq. Qed.

(** C4, as the code has it.  When no deletion fails, the activate handler
    fulfils; afterwards no namespace other than the one of the activated
    version exists, and that one is exactly as it was before: activation
    keeps it when it existed and does not create it when it did not.  The
    clients are claimed last, after the deletion of every stale namespace
    was started.  In particular the namespace of any other version is
    gone. *)
Theorem activate_sweeps_stale_then_claims (version : string) (w : World) :
  (forall n, delete_failure w n = None) ->
  let current := cache_name_of version in
  let rw := on_activate_version version w in
  fst rw = Fulfilled tt /\
  (forall n, n <> current -> storage (snd rw) !! n = None) /\
  storage (snd rw) !! current = storage w !! current /\
  (forall old, old <> version -> storage (snd rw) !! cache_name_of old = None) /\
  exists evs,
    trace (snd rw) = (Claimed :: evs ++ trace w)%list /\
    (Claimed ∉ evs) /\
    (forall n, is_Some (storage w !! n) -> n <> current -> Deleting n ∈ evs).
Proof.
  intros Hnofail current rw. subst rw. rewrite on_activate_version_run. fold current.
  set (w0 := emit (Console ["[SW] Activating service worker..."]) w).
  destruct (sweep_spec current (map_to_list (storage w)).*1 w0)
    as (evs & Htr & Hcl & Hdone & Hdel & Hdf & Hst & Hok).
  cbn zeta in Htr, Hdf, Hst, Hok.
  set (rw := Promise_all _ w0) in *.
  assert (Hful : is_fulfilled (fst rw) = true).
  { apply Hok. intros n _ _. apply Hnofail. }
  clear Hok.
  assert (Hstale : forall n, n <> current -> storage (snd rw) !! n = None).
  { intros n Hne. rewrite Hst. case_decide as Hd; [reflexivity|].
    change (storage w0) with (storage w).
    destruct (storage w !! n) eqn:Hn; [|reflexivity].
    exfalso. apply Hd. split; [|split; [exact Hne | apply Hnofail]].
    apply elem_of_keys. rewrite Hn. eauto. }
  destruct (fst rw) as [l|e] eqn:Hrw; [|discriminate].
  cbn [fst snd emit trace storage].
  split; [reflexivity|]. split; [exact Hstale|]. split; [|split].
  - rewrite Hst. case_decide as Hd; [|reflexivity].
    destruct Hd as (_ & Hd & _). contradiction.
  - intros old Hold. apply Hstale. intros Heq. apply Hold.
    now apply cache_name_of_inj.
  - exists (Console ["[SW] Activation complete"] ::
            evs ++ [Console ["[SW] Activating service worker..."]])%list.
    split; [rewrite Htr; cbn; now rewrite <- app_assoc|]. split.
    + intros H. apply elem_of_cons in H as [H|H]; [discriminate|].
      apply elem_of_app in H as [H|H]; [contradiction|].
      apply elem_of_cons in H as [H|H]; [discriminate|].
      now apply elem_of_nil in H.
    + intros n Hn Hne. rewrite elem_of_cons, elem_of_app. right. left.
      apply Hdel. split; [now apply elem_of_keys | exact Hne].
Qed.

(** ** The message listener: bulk precache *)

Lemma fetches_ok_opened (name : string) (w : World) :
  fetches_ok (opened name w) = fetches_ok w.
Proof. unfold fetches_ok. now rewrite network_opened. Qed.

Lemma batch_conflict_opened (name : string) (w : World) :
  batch_conflict (opened name w) = batch_conflict w.
Proof. unfold opened, caches_open. now destruct (storage w !! name). Qed.

Lemma stores_split (method : string) (r : Response) :
  stores method r = false <-> ok r = false \/ storable method r = false.
Proof. unfold stores. apply andb_false_iff. Qed.

Lemma stores_both (method : string) (r : Response) :
  stores method r = true <-> ok r = true /\ storable method r = true.
Proof. unfold stores. apply andb_true_iff. Qed.

Lemma addAll_fetch_run (target : string) (w : World) :
  addAll_fetch target w =
    (match network w target with
     | Fulfilled r => if stores "GET" r then Fulfilled r else Rejected (request_failed w)
     | Rejected _ => Rejected (request_failed w)
     end, emit (Fetched target) w).
Proof.
  unfold addAll_fetch, fetch_url, fetch_start, fetch_settle, bind. cbn.
  destruct (network w target) as [r|e]; [|reflexivity].
  fold (stores "GET" r). now destruct (stores "GET" r).
Qed.

Lemma addAll_fetches_spec (urls : list string) (w : World) :
  let rw := Promise_all (List.map addAll_fetch urls) w in
  storage (snd rw) = storage w /\
  network (snd rw) = network w /\
  request_failed (snd rw) = request_failed w /\
  batch_conflict (snd rw) = batch_conflict w /\
  trace (snd rw) = (rev (List.map Fetched urls) ++ trace w)%list /\
  match fst rw with
  | Fulfilled rs => Forall2 (fetches_ok w) urls rs
  | Rejected e =>
      e = request_failed w /\
      exists u, u ∈ urls /\ forall r, network w u = Fulfilled r -> stores "GET" r = false
  end.
Proof.
  revert w. induction urls as [|u urls IH]; intros w rw.
  - subst rw. cbn. repeat split. constructor.
  - subst rw. cbn [List.map Promise_all]. rewrite addAll_fetch_run.
    specialize (IH (emit (Fetched u) w)). cbn zeta in IH.
    destruct (Promise_all (List.map addAll_fetch urls) (emit (Fetched u) w))
      as [rs w2].
    cbn [fst snd] in *. destruct IH as (Hst & Hnet & Hrf & Hbc & Htr & Hres).
    cbn [storage network request_failed batch_conflict trace emit] in *.
    split; [exact Hst|]. split; [exact Hnet|]. split; [exact Hrf|].
    split; [exact Hbc|].
    split; [rewrite Htr; cbn; now rewrite <- app_assoc|].
    destruct (network w u) as [r|e] eqn:Hu; [destruct (stores "GET" r) eqn:Hok|].
    + destruct rs as [l|e'].
      * constructor; [now split | exact Hres].
      * destruct Hres as (-> & v & Hv & Hbad). split; [reflexivity|].
        exists v. split; [now apply elem_of_cons; right | exact Hbad].
    + split; [reflexivity|]. exists u. split; [apply elem_of_cons; now left|].
      intros r' Hr'. congruence.
    + split; [reflexivity|]. exists u. split; [apply elem_of_cons; now left|].
      intros r' Hr'. congruence.
Qed.

Lemma put_all_cons (cache u : string) (r : Response)
    (batch : list (string * Response)) (w : World) :
  put_all cache ((u, r) :: batch) w = put_all cache batch (put_entry cache u r w).
Proof. reflexivity. Qed.

Lemma put_all_spec (cache : string) (batch : list (string * Response)) (w : World) :
  let rw := put_all cache batch w in
  fst rw = Fulfilled tt /\
  trace (snd rw) = trace w /\
  (forall k, k ∉ batch.*1 -> entries cache (snd rw) !! k = entries cache w !! k) /\
  ((forall u r r', (u, r) ∈ batch -> (u, r') ∈ batch -> r = r') ->
   forall u r, (u, r) ∈ batch -> entries cache (snd rw) !! u = Some r).
Proof.
  revert w. induction batch as [|[u r] batch IH]; intros w rw; subst rw.
  - cbn. repeat split. intros _ u r H. now apply elem_of_nil in H.
  - rewrite put_all_cons.
    specialize (IH (put_entry cache u r w)). cbn zeta in IH.
    destruct IH as (Hres & Htr & Hother & Hin).
    split; [exact Hres|]. split; [exact Htr|]. split.
    + intros k Hk. rewrite Hother.
      * rewrite entries_put_entry. apply lookup_insert_ne.
        intros ->. apply Hk. cbn. apply elem_of_cons. now left.
      * intros Hk'. apply Hk. cbn. apply elem_of_cons. now right.
    + intros Hfun v s Hvs.
      assert (Hfun' : forall u r r', (u, r) ∈ batch -> (u, r') ∈ batch -> r = r').
      { intros a b b' Hb Hb'. apply (Hfun a); apply elem_of_cons; now right. }
      destruct (decide (v ∈ batch.*1)) as [Hv|Hv].
      * apply list_elem_of_fmap in Hv as ([v' s'] & Heq & Hv). cbn in Heq. subst v'.
        assert (s = s') as <-.
        { apply (Hfun v); [exact Hvs | apply elem_of_cons; now right]. }
        now apply Hin.
      * apply elem_of_cons in Hvs as [[= -> ->]|Hvs].
        -- rewrite (Hother u Hv), entries_put_entry. apply lookup_insert_eq.
        -- exfalso. apply Hv. apply list_elem_of_fmap. now exists (v, s).
Qed.

Lemma Forall2_zip_elem {A B} (P : A -> B -> Prop) (l : list A) (k : list B) :
  Forall2 P l k ->
  (zip l k).*1 = l /\ forall x y, (x, y) ∈ zip l k -> P x y.
Proof.
  induction 1 as [|x y l k Hxy _ [IH1 IH2]]; cbn.
  - split; [reflexivity|]. intros x y H. now apply elem_of_nil in H.
  - split; [now rewrite IH1|].
    intros a b Hab. apply elem_of_cons in Hab as [[= -> ->]|Hab]; auto.
Qed.

(** The message listener on a CACHE_URLS command, by the outcome of the
    fetches and of the batch of writes. *)
Lemma on_message_cache_urls_run (targets : list string) (w : World) :
  let rw := Promise_all (List.map addAll_fetch targets) (opened CACHE_NAME w) in
  let rejected (e : Error) :=
    emit (Posted (mkReply false (Some (message e))))
      (emit (Console ["[SW] Cache URLs failed:"; message e]) (snd rw)) in
  on_message (Some (mkMessage "CACHE_URLS" targets)) w =
    (Fulfilled tt,
     match fst rw with
     | Fulfilled rs =>
         if bool_decide (NoDup (zip targets rs).*1)
         then emit (Posted (mkReply true None))
                (snd (put_all CACHE_NAME (zip targets rs) (snd rw)))
         else rejected (batch_conflict (snd rw))
     | Rejected e => rejected e
     end).
Proof.
  intros rw rejected. subst rejected.
  unfold on_message. cbn [type urls String.eqb Ascii.eqb Bool.eqb].
  unfold bind at 1, resolve at 1. cbn beta iota.
  unfold unawaited, catch, console_error, bind at 1. rewrite caches_open_eq.
  cbn beta iota.
  unfold cache_addAll, bind at 2. unfold bind at 1. fold rw.
  destruct rw as [[rs|e] w2]; cbn [fst snd]; [|reflexivity].
  unfold batch_put. case_bool_decide; [|reflexivity].
  destruct (put_all_spec CACHE_NAME (zip targets rs) w2) as (Hres & _).
  cbn zeta in Hres.
  destruct (put_all CACHE_NAME (zip targets rs) w2) as [res w3].
  cbn [fst] in Hres. subst res. reflexivity.
Qed.

(** What the message listener leaves for a CACHE_URLS command, by the three
    ways the batch can go. *)
Lemma cache_urls_cases (targets : list string) (w : World) :
  let w' := snd (on_message (Some (mkMessage "CACHE_URLS" targets)) w) in
  let fetched := rev (List.map Fetched targets) in
  let rejected (e : Error) :=
    entries CACHE_NAME w' = entries CACHE_NAME w /\
    trace w' = (Posted (mkReply false (Some (message e))) ::
                Console ["[SW] Cache URLs failed:"; message e] ::
                fetched ++ trace w)%list in
  ((forall u, u ∈ targets -> exists r, fetches_ok w u r) /\ NoDup targets /\
   (forall u, u ∈ targets ->
              exists r, network w u = Fulfilled r /\
                        entries CACHE_NAME w' !! u = Some r) /\
   (forall k, k ∉ targets -> entries CACHE_NAME w' !! k = entries CACHE_NAME w !! k) /\
   trace w' = (Posted (mkReply true None) :: fetched ++ trace w)%list) \/
  ((forall u, u ∈ targets -> exists r, fetches_ok w u r) /\ ~ NoDup targets /\
   rejected (batch_conflict w)) \/
  ((exists u, u ∈ targets /\ forall r, network w u = Fulfilled r -> stores "GET" r = false) /\
   rejected (request_failed w)).
Proof.
  intros w' fetched rejected. subst w' fetched rejected.
  rewrite on_message_cache_urls_run. cbn [snd]. cbn zeta.
  destruct (addAll_fetches_spec targets (opened CACHE_NAME w))
    as (Hst & Hnet & Hrf & Hbc & Htr & Hres).
  cbn zeta in Hst, Hnet, Hrf, Hbc, Htr, Hres.
  set (rw := Promise_all _ (opened CACHE_NAME w)) in *.
  rewrite network_opened, ?fetches_ok_opened in Hres. rewrite trace_opened in Htr.
  rewrite request_failed_opened in Hres. rewrite batch_conflict_opened in Hbc.
  assert (Hsame : forall e1 e2,
             entries CACHE_NAME (emit e1 (emit e2 (snd rw))) = entries CACHE_NAME w).
  { intros e1 e2. rewrite !entries_emit. unfold entries at 1. rewrite Hst.
    fold (entries CACHE_NAME (opened CACHE_NAME w)). apply entries_opened. }
  destruct (fst rw) as [rs|e] eqn:Hrw.
  - apply Forall2_zip_elem in Hres as [Hkeys Hpairs].
    assert (Hall : forall u, u ∈ targets -> exists r, fetches_ok w u r).
    { intros u Hu. rewrite <- Hkeys in Hu.
      apply list_elem_of_fmap in Hu as ([u' r] & Heq & Hu). cbn in Heq. subst u'.
      exists r. now apply Hpairs. }
    rewrite Hkeys. case_bool_decide as Hnd.
    + left. split; [exact Hall|]. split; [exact Hnd|].
      destruct (put_all_spec CACHE_NAME (zip targets rs) (snd rw))
        as (_ & Htr2 & Hother & Hstored).
      cbn zeta in Htr2, Hother, Hstored. split; [|split].
      * intros u Hu. rewrite <- Hkeys in Hu.
        apply list_elem_of_fmap in Hu as ([u' r] & Heq & Hu). cbn in Heq. subst u'.
        exists r. split; [apply (Hpairs u r Hu)|].
        rewrite entries_emit. apply Hstored; [|exact Hu].
        intros a b b' Hb Hb'. apply Hpairs in Hb as [Hb _], Hb' as [Hb' _].
        congruence.
      * intros k Hk. rewrite entries_emit, Hother by now rewrite Hkeys.
        unfold entries at 1. rewrite Hst.
        fold (entries CACHE_NAME (opened CACHE_NAME w)). now rewrite entries_opened.
      * cbn. now rewrite Htr2, Htr.
    + right; left. split; [exact Hall|]. split; [exact Hnd|].
      split; [apply Hsame|]. rewrite Hbc. cbn. now rewrite Htr.
  - destruct Hres as (-> & v & Hv & Hbad). right; right.
    split; [now exists v|]. split; [apply Hsame|]. cbn. now rewrite Htr.
Qed.


(** ** The theorems at concrete requests and worlds *)

Lemma getStrategyForRequest_follows_rules_witness :
  String.prefix "/" (pathname (url app_js)) = true /\
  classifies app_js "stale-while-revalidate".
Proof.
  split; [reflexivity|].
  exact (proj1 (getStrategyForRequest_follows_rules app_js eq_refl)).
Defined.

Lemma extension_after_last_dot_witness :
  extension (get "/a/b.min.js" None) = Some "js" /\
  extension (get "/about" None) = Some "/about" /\
  getStrategyForRequest (get "/style.CSS" None) = "network-first" /\
  getStrategyForRequest (get "/about" None) = "network-first".
Proof.
  split; [|split; [|split]].
  - apply (proj1 (extension_after_last_dot (get "/a/b.min.js" None)) "/a/b.min" "js");
      reflexivity.
  - apply (proj1 (proj2 (extension_after_last_dot (get "/about" None)))).
    reflexivity.
  - apply (proj1 (proj2 (proj2 (extension_after_last_dot (get "/style.CSS" None))))
             "CSS"); reflexivity.
  - apply (proj2 (proj2 (proj2 (extension_after_last_dot (get "/about" None)))));
      reflexivity.
Defined.

Lemma network_response_cached_iff_accepted_witness :
  networkFirst_as ∈ executors_as /\
  storable "GET" (page 200 "v2.js") = true /\
  entries CACHE_NAME (snd (networkFirst_as "GET" app_js online_world)) !! app_js_url =
    Some (page 200 "v2.js").
Proof.
  assert (Hin : networkFirst_as ∈ executors_as) by (repeat constructor).
  split; [exact Hin|]. split; [reflexivity|].
  apply (proj1 (network_response_cached_iff_accepted
                  networkFirst_as "GET" app_js online_world Hin)
           (page 200 "v2.js")); vm_compute; reflexivity.
Defined.


Lemma cacheFirst_hit_no_network_witness :
  entries CACHE_NAME offline_cached_world !! app_js_url = Some (page 200 "v1.js") /\
  fst (cacheFirst app_js offline_cached_world) = Fulfilled (Some (page 200 "v1.js")) /\
  network_calls (snd (cacheFirst app_js offline_cached_world)) = 0%nat.
Proof.
  assert (Hhit : entries CACHE_NAME offline_cached_world !! href (url app_js) =
                 Some (page 200 "v1.js")) by (vm_compute; reflexivity).
  destruct (cacheFirst_hit_no_network app_js offline_cached_world
              (page 200 "v1.js") Hhit) as (Hanswer & Hcalls & _).
  split; [exact Hhit|]. split; [exact Hanswer|]. exact Hcalls.
Defined.


Lemma activate_sweeps_stale_then_claims_witness :
  (forall n, delete_failure two_versions_world n = None) /\
  fst (on_activate_version "v2" two_versions_world) = Fulfilled tt /\
  storage (snd (on_activate_version "v2" two_versions_world)) !! cache_name_of "v1" = None /\
  storage (snd (on_activate_version "v2" two_versions_world)) !! cache_name_of "v2" = Some ∅.
Proof.
  assert (Hnofail : forall n, delete_failure two_versions_world n = None)
    by (intros n; reflexivity).
  destruct (activate_sweeps_stale_then_claims "v2" two_versions_world Hnofail)
    as (Hres & _ & Hkept & Hgone & _).
  split; [exact Hnofail|]. split; [exact Hres|]. split.
  - apply Hgone. discriminate.
  - rewrite Hkept. vm_compute. reflexivity.
Defined.

Lemma activate_deletions_independent_witness :
  storage (snd (on_activate_version "v2" failing_world)) !! "zzz" = None /\
  exists e, fst (on_activate_version "v2" failing_world) = Rejected e.
Proof.
  destruct (activate_deletions_independent "v2" failing_world)
    as (evs & _ & Heach & _ & Hfail).
  split.
  - apply (Heach "zzz"); [vm_compute; eauto | discriminate | reflexivity].
  - apply (Hfail "other"); [vm_compute; eauto | discriminate | vm_compute; eauto].
Defined.

Lemma staleWhileRevalidate_outcome_witness :
  fst (staleWhileRevalidate app_js online_world) = Fulfilled (Some (page 200 "v2.js")) /\
  fst (respondWith (staleWhileRevalidate app_js) offline_world) = NetworkError.
Proof.
  split.
  - apply (proj1 (staleWhileRevalidate_outcome app_js online_world) (page 200 "v2.js"));
      vm_compute; reflexivity.
  - apply (proj2 (proj2 (staleWhileRevalidate_outcome app_js offline_world))
             failed_to_fetch); vm_compute; reflexivity.
Defined.


(** ** Where the claims as worded part from the code *)

(** C1 as worded fails: the fetch succeeds with an ok response and, with
    each of the three executors, the namespace holds nothing for the
    request afterwards, because the response is a 206 or carries Vary: *,
    or because the request is a POST request. *)
Lemma ok_response_refused_by_store :
  (network partial_world app_js_url = Fulfilled partial_content /\
   ok partial_content = true /\
   forall E, E ∈ executors ->
     network_calls (snd (E app_js partial_world)) = 1%nat /\
     entries CACHE_NAME (snd (E app_js partial_world)) !! app_js_url = None) /\
  (network varying_world app_js_url = Fulfilled varying /\
   ok varying = true /\
   forall E, E ∈ executors ->
     network_calls (snd (E app_js varying_world)) = 1%nat /\
     entries CACHE_NAME (snd (E app_js varying_world)) !! app_js_url = None) /\
  (network online_world app_js_url = Fulfilled (page 200 "v2.js") /\
   ok (page 200 "v2.js") = true /\
   forall E, E ∈ executors_as ->
     network_calls (snd (E "POST" app_js online_world)) = 1%nat /\
     entries CACHE_NAME (snd (E "POST" app_js online_world)) !! app_js_url = None).
Proof.
  repeat split; try (vm_compute; reflexivity).
  all: try (apply elem_of_executors in H as [->|[->| ->]]; vm_compute; reflexivity).
  all: apply elem_of_executors_as in H as [->|[->| ->]]; vm_compute; reflexivity.
Qed.

(** C3 as worded fails: with four namespaces of which three are stale, one
    of whose deletions is rejected, the other two stale namespaces are
    deleted, but the handler's promise is rejected and the clients are
    never claimed. *)
Lemma activate_failure_skips_claim :
  is_Some (storage failing_world !! "other") /\
  is_Some (delete_failure failing_world "other") /\
  storage (snd (on_activate_version "v2" failing_world)) !! "zzz" = None /\
  storage (snd (on_activate_version "v2" failing_world)) !! cache_name_of "v1" = None /\
  fst (on_activate_version "v2" failing_world) =
    Rejected (mkError "UnknownError" "delete failed") /\
  claimed (snd (on_activate_version "v2" failing_world)) = false.
Proof. repeat split; vm_compute; eauto. Qed.

(** C4 as worded fails: when only the namespace of v1 exists and v2 is
    activated with every deletion succeeding, v1 is gone and the namespace
    of v2 is not there either. *)
Lemma activate_does_not_create_current :
  is_Some (storage only_v1_world !! cache_name_of "v1") /\
  (forall n, delete_failure only_v1_world n = None) /\
  fst (on_activate_version "v2" only_v1_world) = Fulfilled tt /\
  claimed (snd (on_activate_version "v2" only_v1_world)) = true /\
  storage (snd (on_activate_version "v2" only_v1_world)) !! cache_name_of "v1" = None /\
  storage (snd (on_activate_version "v2" only_v1_world)) !! cache_name_of "v2" = None.
Proof. repeat split; vm_compute; eauto. Qed.


(** C6 as worded fails: with nothing cached and the network down, the
    executor's promise is not rejected with the network failure; the
    failure is logged and the promise fulfils with no response. *)
Lemma staleWhileRevalidate_swallows_failure_uncached :
  entries CACHE_NAME offline_world !! app_js_url = None /\
  network offline_world app_js_url = Rejected failed_to_fetch /\
  fst (staleWhileRevalidate app_js offline_world) = Fulfilled None /\
  fst (staleWhileRevalidate app_js offline_world) <> Rejected failed_to_fetch /\
  trace (snd (staleWhileRevalidate app_js offline_world)) =
    [Console ["[SW] Background fetch failed:"; "Failed to fetch"];
     Fetched app_js_url].
Proof. repeat split; try (vm_compute; reflexivity). vm_compute. discriminate. Qed.


(** * Further properties of the worker *)

(** ** Dispatch and the fetch listener *)

Lemma getStrategyForRequest_cases (request : Request) :
  getStrategyForRequest request = CACHE_STRATEGIES.CACHE_FIRST \/
  getStrategyForRequest request = CACHE_STRATEGIES.NETWORK_FIRST \/
  getStrategyForRequest request = CACHE_STRATEGIES.STALE_WHILE_REVALIDATE.
Proof.
  unfold getStrategyForRequest.
  destruct (accepts_html request || Js.strict_eq (extension request) "html"); [auto|].
  destruct (Js.strict_eq (extension request) "css"); [auto|].
  destruct (Js.strict_eq (extension request) "js"); [auto|].
  destruct (Js.array_includes image_extensions (extension request)); auto.
Qed.

(** X1. The dispatcher, fed with the classifier's answer, always runs one
    of the three executors, the one the identifier names: its fallback
    branch, a bare fetch, is never taken for a classified request. *)
Theorem handleRequest_runs_classified_executor (request : Request) :
  (getStrategyForRequest request = "cache-first" ->
   handleRequest request (getStrategyForRequest request) = cacheFirst request) /\
  (getStrategyForRequest request = "network-first" ->
   handleRequest request (getStrategyForRequest request) = networkFirst request) /\
  (getStrategyForRequest request = "stale-while-revalidate" ->
   handleRequest request (getStrategyForRequest request) = staleWhileRevalidate request) /\
  exists E, E ∈ executors /\
            handleRequest request (getStrategyForRequest request) = E request.
Proof.
  split; [|split; [|split]].
  - intros ->. reflexivity.
  - intros ->. reflexivity.
  - intros ->. reflexivity.
  - destruct (getStrategyForRequest_cases request) as [-> | [-> | ->]].
    + exists cacheFirst. split; [repeat constructor | reflexivity].
    + exists networkFirst. split; [repeat constructor | reflexivity].
    + exists staleWhileRevalidate. split; [repeat constructor | reflexivity].
Qed.

(** X2. For a strategy string that is none of the three identifiers the
    dispatcher does a bare fetch: the response is passed on when the fetch
    is fulfilled, the network failure is surfaced when it is rejected, and
    the cache store is not touched either way. *)
Theorem handleRequest_unknown_strategy
    (request : Request) (strategy : string) (w : World) :
  strategy <> "cache-first" ->
  strategy <> "network-first" ->
  strategy <> "stale-while-revalidate" ->
  fst (handleRequest request strategy w) =
    match network w (href (url request)) with
    | Fulfilled r => Fulfilled (Some r)
    | Rejected e => Rejected e
    end /\
  storage (snd (handleRequest request strategy w)) = storage w /\
  network_calls (snd (handleRequest request strategy w)) = S (network_calls w).
Proof.
  intros Hcf Hnf Hswr. unfold handleRequest, handleRequest_as.
  destruct (String.eqb_spec strategy CACHE_STRATEGIES.CACHE_FIRST); [contradiction|].
  destruct (String.eqb_spec strategy CACHE_STRATEGIES.NETWORK_FIRST); [contradiction|].
  destruct (String.eqb_spec strategy CACHE_STRATEGIES.STALE_WHILE_REVALIDATE);
    [contradiction|].
  unfold bind, fetch, fetch_url, fetch_start, fetch_settle, bind, resolve. cbn.
  destruct (network w (href (url request))); repeat split.
Qed.

Lemma cacheFirst_answers (request : Request) (w : World) :
  exists r, fst (cacheFirst request w) = Fulfilled (Some r).
Proof.
  destruct (entries CACHE_NAME w !! href (url request)) as [cached|] eqn:Hentry.
  - rewrite (cacheFirst_hit_run _ _ _ Hentry). eauto.
  - rewrite (cacheFirst_miss_run _ _ Hentry).
    destruct (network w (href (url request))); cbn; eauto.
Qed.

Lemma networkFirst_answers (request : Request) (w : World) :
  exists r, fst (networkFirst request w) = Fulfilled (Some r).
Proof.
  rewrite networkFirst_run.
  destruct (network w (href (url request))); cbn; eauto.
Qed.


(** ** More on the strategy executors *)

(** X4. A fetch that is fulfilled is passed on to the caller as it is,
    whatever its status: the network-first executor returns it even when a
    cached entry exists, and the other two return it when the key has no
    cached entry.  A response that is not ok is thus returned, not replaced
    by the cached entry or by the offline response. *)
Theorem fulfilled_fetch_is_passed_on (request : Request) (w : World) (r : Response) :
  network w (href (url request)) = Fulfilled r ->
  fst (networkFirst request w) = Fulfilled (Some r) /\
  (entries CACHE_NAME w !! href (url request) = None ->
   fst (cacheFirst request w) = Fulfilled (Some r) /\
   fst (staleWhileRevalidate request w) = Fulfilled (Some r)).
Proof.
  intros Hnet. split.
  - rewrite networkFirst_run, Hnet. reflexivity.
  - intros Hmiss. split.
    + rewrite (cacheFirst_miss_run _ _ Hmiss), Hnet. reflexivity.
    + rewrite staleWhileRevalidate_run, Hnet, Hmiss. reflexivity.
Qed.

(** X5. A cache-first request whose key has no entry, with the network
    down, is answered with a 503 Service Unavailable response carrying the
    offline text as plain text; the failure is logged and the entries of
    the namespace stay as they were. *)
Theorem cacheFirst_miss_offline (request : Request) (w : World) (e : Error) :
  entries CACHE_NAME w !! href (url request) = None ->
  network w (href (url request)) = Rejected e ->
  exists r,
    fst (cacheFirst request w) = Fulfilled (Some r) /\
    status r = 503 /\ statusText r = "Service Unavailable" /\
    body r = "Offline - resource not available" /\
    headers_get "content-type" (resp_headers r) = Some "text/plain;charset=UTF-8" /\
    entries CACHE_NAME (snd (cacheFirst request w)) = entries CACHE_NAME w /\
    hd_error (trace (snd (cacheFirst request w))) =
      Some (Console ["[SW] Cache first failed:"; message e]).
Proof.
  intros Hmiss Hnet. rewrite (cacheFirst_miss_run _ _ Hmiss), Hnet.
  eexists. split; [reflexivity|]. cbn [snd].
  autorewrite with world. repeat split.
Qed.

Lemma namespace_kept_opened (name n : string) (w : World) :
  is_Some (storage w !! n) -> is_Some (storage (opened name w) !! n).
Proof.
  intros Hn. unfold opened, caches_open.
  destruct (storage w !! name) eqn:Hname; cbn; [exact Hn|].
  destruct (decide (name = n)) as [->|Hne].
  - rewrite lookup_insert_eq. eauto.
  - now rewrite lookup_insert_ne.
Qed.

Lemma namespace_kept_put_entry (cache key n : string) (r : Response) (w : World) :
  is_Some (storage w !! n) -> is_Some (storage (put_entry cache key r w) !! n).
Proof.
  intros Hn. unfold put_entry. cbn.
  destruct (decide (cache = n)) as [->|Hne].
  - rewrite lookup_insert_eq. eauto.
  - now rewrite lookup_insert_ne.
Qed.

(** The worlds an executor can leave behind. *)
Lemma executor_final_world
    (E : Request -> Promise (option Response)) (request : Request) (w : World) :
  E ∈ executors ->
  let key := href (url request) in
  exists w1,
    (w1 = emit (Fetched key) (opened CACHE_NAME w) \/
     exists t, w1 = set_timeline t (emit (Fetched key) (opened CACHE_NAME w))) /\
    (snd (E request w) = w \/
     snd (E request w) = w1 \/
     (exists r, snd (E request w) = put_entry CACHE_NAME key r w1) \/
     (exists args, snd (E request w) = emit (Console args) w1)).
Proof.
  intros HE key. apply elem_of_executors in HE as [->|[->| ->]].
  - exists (emit (Fetched key) (opened CACHE_NAME w)). split; [now left|].
    destruct (entries CACHE_NAME w !! href (url request)) as [cached|] eqn:Hentry.
    + rewrite (cacheFirst_hit_run _ _ _ Hentry). now left.
    + rewrite (cacheFirst_miss_run _ _ Hentry). fold key.
      destruct (network w key) as [r|e]; [destruct (stores "GET" r)|];
        cbn [snd]; eauto 6.
  - exists (emit (Fetched key) (opened CACHE_NAME w)). split; [now left|].
    rewrite networkFirst_run. fold key.
    destruct (network w key) as [r|e]; [destruct (stores "GET" r)|];
      cbn [snd]; eauto 6.
  - exists (revalidating (entries CACHE_NAME w !! key) key w).
    split; [right; eexists; reflexivity|].
    rewrite staleWhileRevalidate_run. fold key.
    destruct (network w key) as [r|e]; [destruct (stores "GET" r)|];
      cbn [snd]; eauto 6.
Qed.

Lemma entries_fetched (cache key : string) (w w1 : World) :
  w1 = emit (Fetched key) (opened CACHE_NAME w) \/
  (exists t, w1 = set_timeline t (emit (Fetched key) (opened CACHE_NAME w))) ->
  entries cache w1 = entries cache w /\
  (forall n, is_Some (storage w !! n) -> is_Some (storage w1 !! n)).
Proof.
  intros [-> | [t ->]]; (split; [now autorewrite with world|]);
    intros n Hn; cbn; now apply namespace_kept_opened.
Qed.

(** X6. An executor writes nothing but the entry of its own request in the
    current namespace: every other key of that namespace and every entry
    of any other namespace is as before, and no namespace is removed. *)
Theorem executor_writes_own_key_only
    (E : Request -> Promise (option Response)) (request : Request) (w : World) :
  E ∈ executors ->
  (forall cache k,
      cache <> CACHE_NAME \/ k <> href (url request) ->
      entries cache (snd (E request w)) !! k = entries cache w !! k) /\
  (forall n, is_Some (storage w !! n) -> is_Some (storage (snd (E request w)) !! n)).
Proof.
  intros HE.
  destruct (executor_final_world E request w HE)
    as (w1 & Hw1 & [-> | [-> | [[r ->] | [args ->]]]]).
  - split; [reflexivity | auto].
  - split.
    + intros cache k _. now rewrite (proj1 (entries_fetched cache _ _ _ Hw1)).
    + apply (entries_fetched CACHE_NAME _ _ _ Hw1).
  - split.
    + intros cache k [Hc|Hk].
      * rewrite entries_put_entry_ne by congruence.
        now rewrite (proj1 (entries_fetched cache _ _ _ Hw1)).
      * destruct (decide (cache = CACHE_NAME)) as [->|Hc].
        -- rewrite entries_put_entry, lookup_insert_ne by congruence.
           now rewrite (proj1 (entries_fetched CACHE_NAME _ _ _ Hw1)).
        -- rewrite entries_put_entry_ne by congruence.
           now rewrite (proj1 (entries_fetched cache _ _ _ Hw1)).
    + intros n Hn. apply namespace_kept_put_entry.
      now apply (entries_fetched CACHE_NAME _ _ _ Hw1).
  - split.
    + intros cache k _. rewrite entries_emit.
      now rewrite (proj1 (entries_fetched cache _ _ _ Hw1)).
    + intros n Hn. cbn. now apply (entries_fetched CACHE_NAME _ _ _ Hw1).
Qed.

(** X7. Round trip through the cache-first executor: once a request missed
    the cache, was fetched with an ok response that the store takes, and
    the write the executor started has settled, the same request is
    answered from the cache with that response, without a network call,
    whatever the network has become. *)
Theorem cacheFirst_miss_then_hit
    (method : string) (request : Request) (w : World) (r : Response)
    (net : string -> Settled Response) :
  matched method CACHE_NAME request w = None ->
  network w (href (url request)) = Fulfilled r ->
  ok r = true ->
  storable method r = true ->
  let w' := with_network net (snd (cacheFirst_as method request w)) in
  cacheFirst_as method request w' = (Fulfilled (Some r), w').
Proof.
  intros Hmiss Hnet Hok Hst w'.
  assert (Hget : method = "GET") by now apply storable_spec in Hst.
  subst method. apply cacheFirst_hit_run. subst w'.
  rewrite cacheFirst_as_run, Hmiss, Hnet. cbn [snd].
  change (entries CACHE_NAME (with_network net ?x)) with (entries CACHE_NAME x).
  now apply after_put_stored.
Qed.

(** X8. What the network-first executor stored while online is what it
    answers with once the network is down: after an ok response that the
    store takes, and once the write the executor started has settled, the
    same request with a failing network gets that response back. *)
Theorem networkFirst_online_then_offline
    (method : string) (request : Request) (w : World) (r : Response)
    (net : string -> Settled Response) (e : Error) :
  network w (href (url request)) = Fulfilled r ->
  ok r = true ->
  storable method r = true ->
  net (href (url request)) = Rejected e ->
  fst (networkFirst_as method request
         (with_network net (snd (networkFirst_as method request w)))) =
    Fulfilled (Some r).
Proof.
  intros Hnet Hok Hst Hdown.
  assert (Hget : method = "GET") by now apply storable_spec in Hst.
  subst method.
  rewrite (networkFirst_as_run "GET" request (with_network net _)).
  cbn [network with_network]. rewrite Hdown. cbn [fst]. rewrite matched_GET.
  change (entries CACHE_NAME (with_network net ?x)) with (entries CACHE_NAME x).
  rewrite networkFirst_as_run, Hnet. cbn [snd].
  now rewrite after_put_stored.
Qed.

Lemma matched_other_method (method cache : string) (request : Request) (w : World) :
  method <> "GET" -> matched method cache request w = None.
Proof.
  intros Hm. unfold matched.
  destruct (String.eqb_spec method "GET"); [contradiction | reflexivity].
Qed.

Lemma after_put_other_method (method key : string) (r : Response) (w : World) :
  method <> "GET" -> after_put method key r w = w.
Proof.
  intros Hm. apply after_put_refused. right. unfold storable.
  destruct (String.eqb_spec method "GET"); [contradiction | reflexivity].
Qed.

(** X27. A request that is not a GET request goes past the cache: with
    each executor it is fetched once, the entries of the namespace stay
    what they were whatever the response, and a fulfilled fetch is passed
    on.  When the fetch is rejected the cache is of no help even if it
    holds an entry for the URL: cache-first and network-first answer with
    their 503 response, and stale-while-revalidate leaves the page with a
    network error. *)
Theorem other_methods_bypass_cache
    (method : string) (request : Request) (w : World) :
  method <> "GET" ->
  let key := href (url request) in
  (forall E, E ∈ executors_as ->
     network_calls (snd (E method request w)) = S (network_calls w) /\
     entries CACHE_NAME (snd (E method request w)) = entries CACHE_NAME w /\
     forall r, network w key = Fulfilled r ->
               fst (E method request w) = Fulfilled (Some r)) /\
  (forall e, network w key = Rejected e ->
     (exists r, fst (cacheFirst_as method request w) = Fulfilled (Some r) /\
                status r = 503 /\ body r = offline_text) /\
     (exists r, fst (networkFirst_as method request w) = Fulfilled (Some r) /\
                status r = 503 /\ body r = offline_text) /\
     fst (staleWhileRevalidate_as method request w) = Fulfilled None /\
     fst (respondWith (staleWhileRevalidate_as method request) w) = NetworkError).
Proof.
  intros Hm key.
  pose proof (matched_other_method method CACHE_NAME request w Hm) as Hmiss.
  split.
  - intros E HE. apply elem_of_executors_as in HE as [->|[->| ->]].
    + rewrite cacheFirst_as_run, Hmiss. fold key.
      destruct (network w key) as [r|e]; cbn [fst snd];
        rewrite ?after_put_other_method by exact Hm; autorewrite with world;
        cbn [is_fetch]; repeat split; congruence.
    + rewrite networkFirst_as_run. fold key.
      destruct (network w key) as [r|e]; cbn [fst snd];
        rewrite ?after_put_other_method by exact Hm; autorewrite with world;
        cbn [is_fetch]; repeat split; congruence.
    + rewrite staleWhileRevalidate_as_run, Hmiss. fold key.
      destruct (network w key) as [r|e]; cbn [fst snd];
        rewrite ?after_put_other_method by exact Hm; autorewrite with world;
        cbn [is_fetch]; repeat split; congruence.
  - intros e Hnet. unfold respondWith.
    rewrite cacheFirst_as_run, networkFirst_as_run, staleWhileRevalidate_as_run.
    fold key. rewrite Hmiss, Hnet. cbn [fst].
    split; [eexists; repeat split|]. split; [eexists; repeat split|]. now split.
Qed.

(** ** More on the message listener *)

(** X10. A message without data, or whose type is neither SKIP_WAITING nor
    CACHE_URLS, is ignored: nothing changes and no reply is posted.  A
    SKIP_WAITING message calls skipWaiting and does nothing else; it gets
    no reply either. *)
Theorem on_message_other_commands (w : World) :
  on_message None w = (Fulfilled tt, w) /\
  (forall d, type d <> "SKIP_WAITING" -> type d <> "CACHE_URLS" ->
             on_message (Some d) w = (Fulfilled tt, w)) /\
  (forall d, type d = "SKIP_WAITING" ->
             on_message (Some d) w = (Fulfilled tt, emit SkippedWaiting w)).
Proof.
  split; [reflexivity|]. split.
  - intros d Hskip Hcache. unfold on_message.
    destruct (String.eqb_spec (type d) "SKIP_WAITING"); [contradiction|].
    destruct (String.eqb_spec (type d) "CACHE_URLS"); [contradiction|].
    reflexivity.
  - intros d Hskip. unfold on_message. rewrite Hskip. reflexivity.
Qed.

Lemma put_all_network (cache : string) (batch : list (string * Response)) (w : World) :
  network (snd (put_all cache batch w)) = network w.
Proof.
  revert w. induction batch as [|[u r] batch IH]; intros w; [reflexivity|].
  rewrite put_all_cons, IH. reflexivity.
Qed.

Lemma posted_app (l k : list Event) : posted (l ++ k) = (posted l ++ posted k)%list.
Proof.
  induction l as [|e l IH]; [reflexivity|].
  destruct e; cbn; now rewrite IH.
Qed.

Lemma posted_fetches (targets : list string) : posted (List.map Fetched targets) = [].
Proof. induction targets; [reflexivity | assumption]. Qed.

Lemma posted_rev_fetches (targets : list string) :
  posted (rev (List.map Fetched targets)) = [].
Proof. rewrite <- map_rev. apply posted_fetches. Qed.

Lemma cache_urls_network (targets : list string) (w : World) :
  network (snd (on_message (Some (mkMessage "CACHE_URLS" targets)) w)) = network w.
Proof.
  rewrite on_message_cache_urls_run. cbn [snd]. cbn zeta.
  destruct (addAll_fetches_spec targets (opened CACHE_NAME w)) as (_ & Hnet & _).
  cbn zeta in Hnet. rewrite network_opened in Hnet.
  destruct (fst (Promise_all _ (opened CACHE_NAME w))) as [rs|e]; [|exact Hnet].
  case_bool_decide; [|exact Hnet]. cbn. now rewrite put_all_network.
Qed.

(** A response that is ok is one the precache takes or one the store
    refuses: the three ways a batch can go, read off the network. *)
Lemma cache_urls_way (targets : list string) (w : World) :
  let accepted :=
    forall u, u ∈ targets -> exists r, fetches_ok w u r in
  let refused :=
    exists u, u ∈ targets /\ forall r, network w u = Fulfilled r -> stores "GET" r = false in
  (accepted -> refused -> False).
Proof.
  intros accepted refused Hall (u & Hu & Hbad).
  destruct (Hall u Hu) as (r & Hr & Hs). rewrite (Hbad r Hr) in Hs. discriminate.
Qed.

(** X11. Bulk precache is idempotent: when every listed URL is fetched
    with an ok response, sending the same CACHE_URLS command a second time
    leaves the entries of the namespace as the first one left them. *)
Theorem cache_urls_idempotent (targets : list string) (w : World) :
  (forall u, u ∈ targets -> exists r, network w u = Fulfilled r /\ ok r = true) ->
  let command := Some (mkMessage "CACHE_URLS" targets) in
  let w1 := snd (on_message command w) in
  let w2 := snd (on_message command w1) in
  entries CACHE_NAME w2 = entries CACHE_NAME w1.
Proof.
  intros _ command w1 w2.
  pose proof (cache_urls_network targets w) as Hnet1. fold command w1 in Hnet1.
  pose proof (cache_urls_cases targets w) as H1.
  pose proof (cache_urls_cases targets w1) as H2.
  cbn zeta in H1, H2. fold command in H1, H2. fold w1 in H1, H2. fold w2 in H2.
  unfold fetches_ok in H1, H2. rewrite Hnet1 in H2.
  pose proof (cache_urls_way targets w) as Hway. cbn zeta in Hway.
  unfold fetches_ok in Hway.
  destruct H2 as [(Hall2 & Hnd2 & Hin2 & Hout2 & _)
                 |[(Hall2 & Hdup2 & Hsame2 & _)|(Hbad2 & Hsame2 & _)]];
    [|exact Hsame2|exact Hsame2].
  destruct H1 as [(_ & _ & Hin1 & _ & _)|[(_ & Hdup1 & _)|(Hbad1 & _)]];
    [|contradiction|exfalso; now apply Hway].
  apply map_eq. intros k. destruct (decide (k ∈ targets)) as [Hk|Hk].
  - destruct (Hin1 k Hk) as (r1 & Hr1 & ->).
    destruct (Hin2 k Hk) as (r2 & Hr2 & ->). congruence.
  - now apply Hout2.
Qed.

(** X12. A CACHE_URLS command is answered with exactly one reply, and the
    reply says success exactly when no URL is listed twice and every
    listed URL was fetched with an ok response that the store takes; a
    success reply carries no error, a failure reply carries the message of
    the platform's rejection. *)
Theorem cache_urls_one_reply (targets : list string) (w : World) :
  exists reply,
    replies (snd (on_message (Some (mkMessage "CACHE_URLS" targets)) w)) =
      reply :: replies w /\
    (success reply = true <->
     NoDup targets /\
     forall u, u ∈ targets ->
               exists r, network w u = Fulfilled r /\ ok r = true /\
                         storable "GET" r = true) /\
    (success reply = true -> error reply = None) /\
    (success reply = false ->
     error reply = Some (message (request_failed w)) \/
     error reply = Some (message (batch_conflict w)) /\ ~ NoDup targets).
Proof.
  pose proof (cache_urls_cases targets w) as Hcases.
  pose proof (cache_urls_way targets w) as Hway.
  cbn zeta in Hcases, Hway. unfold replies.
  assert (Hsplit : (forall u, u ∈ targets -> exists r, fetches_ok w u r) <->
                   (forall u, u ∈ targets ->
                      exists r, network w u = Fulfilled r /\ ok r = true /\
                                storable "GET" r = true)).
  { unfold fetches_ok. split; intros H u Hu; destruct (H u Hu) as (r & Hr & Hs);
      exists r; (split; [exact Hr|]).
    - now apply stores_both.
    - now apply stores_both. }
  destruct Hcases as [(Hall & Hnd & _ & _ & Htr)
                     |[(Hall & Hdup & _ & Htr)|(Hbad & _ & Htr)]];
    rewrite Htr; cbn [posted]; rewrite posted_app, posted_rev_fetches;
    eexists; (split; [reflexivity|]); cbn [success error].
  - split; [|split; [reflexivity | discriminate]].
    split; [intros _; split; [exact Hnd | now apply Hsplit] | reflexivity].
  - split; [|split; [discriminate | intros _; right; now split]].
    split; [discriminate | intros [Hnd _]; contradiction].
  - split; [|split; [discriminate | intros _; now left]].
    split; [discriminate|]. intros [_ Hall]. exfalso.
    apply Hway; [now apply Hsplit | exact Hbad].
Qed.

(** X13. What a bulk precache that replied success has stored is available
    offline: a listed URL is afterwards answered by the cache-first
    executor without a network call, and by the network-first executor
    when the network is down, with the response the precache fetched. *)
Theorem precached_url_served_offline
    (targets : list string) (request : Request) (w : World) (r : Response)
    (net : string -> Settled Response) :
  let w1 := snd (on_message (Some (mkMessage "CACHE_URLS" targets)) w) in
  hd_error (replies w1) = Some (mkReply true None) ->
  href (url request) ∈ targets ->
  network w (href (url request)) = Fulfilled r ->
  let w' := with_network net w1 in
  cacheFirst request w' = (Fulfilled (Some r), w') /\
  (forall e, net (href (url request)) = Rejected e ->
             fst (networkFirst request w') = Fulfilled (Some r)).
Proof.
  intros w1 Hreply Hin Hnet w'.
  pose proof (cache_urls_cases targets w) as Hcases. cbn zeta in Hcases.
  fold w1 in Hcases. unfold replies in Hreply.
  assert (Hentry : entries CACHE_NAME w' !! href (url request) = Some r).
  { subst w'. change (entries CACHE_NAME (with_network net ?x))
      with (entries CACHE_NAME x).
    destruct Hcases as [(_ & _ & Hstored & _)|[(_ & _ & _ & Htr)|(_ & _ & Htr)]].
    - destruct (Hstored _ Hin) as (r' & Hr' & ->). congruence.
    - rewrite Htr in Hreply. discriminate Hreply.
    - rewrite Htr in Hreply. discriminate Hreply. }
  split; [now apply cacheFirst_hit_run|].
  intros e Hdown. rewrite networkFirst_run.
  replace (network w') with net by reflexivity. now rewrite Hdown, Hentry.
Qed.

(** ** More on activation *)

(** The store an activation leaves, namespace by namespace. *)
Lemma activate_storage (version : string) (w : World) (m : string) :
  storage (snd (on_activate_version version w)) !! m =
    if decide (is_Some (storage w !! m) /\ m <> cache_name_of version /\
               delete_failure w m = None)
    then None else storage w !! m.
Proof.
  rewrite on_activate_version_run.
  set (w0 := emit (Console ["[SW] Activating service worker..."]) w).
  destruct (sweep_spec (cache_name_of version) (map_to_list (storage w)).*1 w0)
    as (_ & _ & _ & _ & _ & _ & Hst & _).
  cbn zeta in Hst.
  set (rw := Promise_all _ w0) in *.
  assert (Hm : storage (snd rw) !! m =
               if decide (is_Some (storage w !! m) /\ m <> cache_name_of version /\
                          delete_failure w m = None)
               then None else storage w !! m).
  { rewrite Hst. change (storage w0) with (storage w).
    change (delete_failure w0) with (delete_failure w).
    case_decide as Hswept; case_decide as Hstale; try reflexivity; exfalso.
    - apply Hstale. destruct Hswept as (Hin & Hne & Hdel).
      split; [now apply elem_of_keys | now split].
    - apply Hswept. destruct Hstale as (Hin & Hne & Hdel).
      split; [now apply elem_of_keys | now split]. }
  destruct (fst rw); cbn [snd storage emit]; exact Hm.
Qed.

Lemma sweep_network_calls (current : string) (names : list string) (w : World) :
  network_calls (snd (Promise_all (List.map (sweep_one current) names) w)) =
  network_calls w /\
  delete_failure (snd (Promise_all (List.map (sweep_one current) names) w)) =
  delete_failure w.
Proof.
  revert w. induction names as [|a names IH]; intros w; [split; reflexivity|].
  cbn [List.map].
  destruct (Promise_all_cons (sweep_one current a)
              (List.map (sweep_one current) names) w) as [-> _].
  destruct (IH (snd (sweep_one current a w))) as [-> ->].
  rewrite sweep_one_run.
  destruct (String.eqb a current); [split; reflexivity|].
  destruct (delete_failure w a); split; reflexivity.
Qed.

Lemma activate_platform (version : string) (w : World) :
  network_calls (snd (on_activate_version version w)) = network_calls w /\
  delete_failure (snd (on_activate_version version w)) = delete_failure w.
Proof.
  rewrite on_activate_version_run.
  set (w0 := emit (Console ["[SW] Activating service worker..."]) w).
  destruct (sweep_network_calls (cache_name_of version)
              (map_to_list (storage w)).*1 w0) as [Hcalls Hdf].
  destruct (fst (Promise_all _ w0)); cbn [snd]; split;
    first [exact Hcalls | exact Hdf].
Qed.

(** X14. Whatever the deletions do, activation leaves the namespace of the
    activated version alone, entries included, keeps every namespace whose
    deletion fails, creates no namespace and makes no network call. *)
Theorem activation_keeps_current_namespace (version : string) (w : World) :
  let w' := snd (on_activate_version version w) in
  storage w' !! cache_name_of version = storage w !! cache_name_of version /\
  entries (cache_name_of version) w' = entries (cache_name_of version) w /\
  (forall n, is_Some (delete_failure w n) -> storage w' !! n = storage w !! n) /\
  (forall n, storage w !! n = None -> storage w' !! n = None) /\
  network_calls w' = network_calls w.
Proof.
  intros w'. subst w'.
  assert (Hcur : storage (snd (on_activate_version version w)) !! cache_name_of version =
                 storage w !! cache_name_of version).
  { rewrite activate_storage. case_decide as Hd; [|reflexivity].
    destruct Hd as (_ & Hd & _). contradiction. }
  split; [exact Hcur|]. split; [unfold entries; now rewrite Hcur|].
  split; [|split].
  - intros n [e He]. rewrite activate_storage. case_decide as Hd; [|reflexivity].
    destruct Hd as (_ & _ & Hd). congruence.
  - intros n Hn. rewrite activate_storage. case_decide; [reflexivity | exact Hn].
  - apply activate_platform.
Qed.

Lemma sweep_only_current (current : string) (names : list string) (w : World) :
  (forall n, n ∈ names -> n = current) ->
  Promise_all (List.map (sweep_one current) names) w =
    (Fulfilled (List.map (fun _ => None) names), w).
Proof.
  induction names as [|a names IH]; intros Hall; [reflexivity|].
  cbn [List.map Promise_all].
  rewrite sweep_one_run, (Hall a) by (apply elem_of_cons; now left).
  rewrite String.eqb_refl, IH; [reflexivity|].
  intros n Hn. apply Hall. apply elem_of_cons. now right.
Qed.

(** X15. Activation is idempotent: after an activation in which no
    deletion failed, activating the same version again starts no deletion
    and leaves the store as it is; it only logs and claims the clients
    once more. *)
Theorem activation_idempotent (version : string) (w : World) :
  (forall n, delete_failure w n = None) ->
  let w1 := snd (on_activate_version version w) in
  on_activate_version version w1 =
    (Fulfilled tt,
     emit Claimed
       (emit (Console ["[SW] Activation complete"])
          (emit (Console ["[SW] Activating service worker..."]) w1))).
Proof.
  intros Hnofail w1. rewrite on_activate_version_run.
  rewrite sweep_only_current; [reflexivity|].
  intros n Hn. apply elem_of_keys in Hn.
  destruct (decide (n = cache_name_of version)) as [Heq|Hne]; [exact Heq|].
  exfalso. subst w1. rewrite activate_storage in Hn.
  case_decide as Hd; [destruct Hn; discriminate|].
  apply Hd. split; [exact Hn | split; [exact Hne | apply Hnofail]].
Qed.

(** ** More on the classifier *)

(** X16. A dot in a directory name hides the file's kind: when the text
    after the last '.' of the pathname contains a '/', the request is
    classified network-first whatever that text ends in. *)
Theorem dot_in_directory_network_first (request : Request) (stem ext : string) :
  pathname (url request) = stem +:+ "." +:+ ext ->
  occurs "." ext = false ->
  occurs "/" ext = true ->
  getStrategyForRequest request = "network-first".
Proof.
  intros Hpath Hdot Hslash.
  assert (Hext : extension request = Some ext).
  { unfold extension. rewrite Hpath. now apply pop_split_last. }
  unfold getStrategyForRequest. rewrite Hext.
  destruct (accepts_html request); [reflexivity|].
  unfold Js.strict_eq, Js.array_includes, image_extensions, existsb.
  literal_no_upper ext "html" Hslash. literal_no_upper ext "css" Hslash.
  literal_no_upper ext "js" Hslash. literal_no_upper ext "jpg" Hslash.
  literal_no_upper ext "jpeg" Hslash. literal_no_upper ext "png" Hslash.
  literal_no_upper ext "gif" Hslash. literal_no_upper ext "webp" Hslash.
  literal_no_upper ext "svg" Hslash. reflexivity.
Qed.

(** ** The push and notification click listeners *)

Lemma or_else_nonempty (x : option string) (fallback : string) :
  fallback <> "" -> or_else x fallback <> "".
Proof. intros Hf. destruct x as [[|c s]|]; cbn; [exact Hf | discriminate | exact Hf]. Qed.

Lemma or_else_given (s fallback : string) :
  s <> "" -> or_else (Some s) fallback = s.
Proof. intros Hs. destruct s; [contradiction | reflexivity]. Qed.

Lemma value_or_text (x : option string) (fallback : string) :
  Notifications.value_or (Notifications.Text <$> x) fallback =
  Notifications.Text (or_else x fallback).
Proof. destruct x as [[|c s]|]; reflexivity. Qed.

Lemma on_push_payload (d : Notifications.Payload) (s : Notifications.Shell) :
  Notifications.on_push (Notifications.Data (Fulfilled d)) s =
  if Notifications.permission s then
    (Fulfilled tt,
     Notifications.record
       (Notifications.Shown
          {| Notifications.shown_title := or_else (Notifications.title d) "TS Snippets";
             Notifications.shown_body :=
               or_else (Notifications.body d) "New TypeScript snippet available!";
             Notifications.icon := "/icon-192.png";
             Notifications.badge := "/badge-72.png";
             Notifications.vibrate := [200; 100; 200];
             Notifications.data_url :=
               Notifications.Text (or_else (Notifications.url d) "/") |}) s)
  else
    (Rejected (mkError "TypeError" "No notification permission has been granted"), s).
Proof.
  unfold Notifications.on_push, Notifications.parsed, Notifications.fields,
    Notifications.showNotification.
  cbn [Notifications.options_body Notifications.options_icon
       Notifications.options_badge Notifications.options_vibrate
       Notifications.options_data_url].
  rewrite !value_or_text. reflexivity.
Qed.

(** X17. A push does one of two things: it shows one notification and its
    promise is fulfilled, or it shows nothing and fails.  With the
    permission granted, a push without data, or with data whose fields are
    absent or strings, shows a notification whose title, body and target
    URL are never empty: each is the payload's field when that is a
    non-empty string and the fallback otherwise.  Data that does not
    parse, data that parses to null and a missing permission show nothing.
    A field that is truthy without being a string is passed on as it is:
    the title shown is what it converts to, be that the empty string. *)
Theorem push_notification_is_filled_in
    (data : Notifications.PushData) (s : Notifications.Shell) :
  (snd (Notifications.on_push data s) = s /\
   (exists e, fst (Notifications.on_push data s) = Rejected e) \/
   exists n, Notifications.on_push data s =
             (Fulfilled tt, Notifications.record (Notifications.Shown n) s)) /\
  (forall d,
      data = Notifications.Data (Fulfilled d) \/
      data = Notifications.NoData /\ d = Notifications.mkPayload None None None ->
      Notifications.permission s = true ->
      exists n,
        Notifications.on_push data s =
          (Fulfilled tt, Notifications.record (Notifications.Shown n) s) /\
        Notifications.shown_title n = or_else (Notifications.title d) "TS Snippets" /\
        Notifications.shown_body n =
          or_else (Notifications.body d) "New TypeScript snippet available!" /\
        Notifications.data_url n =
          Notifications.Text (or_else (Notifications.url d) "/") /\
        Notifications.shown_title n <> "" /\
        Notifications.shown_body n <> "" /\
        or_else (Notifications.url d) "/" <> "") /\
  (forall e, data = Notifications.Data (Rejected e) ->
             Notifications.on_push data s = (Rejected e, s)) /\
  (data = Notifications.Parsed Notifications.Null ->
   exists e, Notifications.on_push data s = (Rejected e, s) /\
             err_name e = "TypeError") /\
  (Notifications.permission s = false ->
   snd (Notifications.on_push data s) = s /\
   exists e, fst (Notifications.on_push data s) = Rejected e) /\
  (forall text b u,
      data = Notifications.Parsed
               (Notifications.Object
                  (Some (Notifications.Other true (Fulfilled text))) b u) ->
      forall n, Notifications.on_push data s =
                  (Fulfilled tt, Notifications.record (Notifications.Shown n) s) ->
                Notifications.shown_title n = text).
Proof.
  assert (Hshow : forall t o,
             snd (Notifications.showNotification t o s) = s /\
             (exists e, fst (Notifications.showNotification t o s) = Rejected e) \/
             exists n, Notifications.showNotification t o s =
                       (Fulfilled tt, Notifications.record (Notifications.Shown n) s)).
  { intros t o. unfold Notifications.showNotification.
    destruct (Notifications.render t); [|left; cbn; eauto].
    destruct (Notifications.render _); [|left; cbn; eauto].
    destruct (Notifications.permission s); [right; eauto | left; cbn; eauto]. }
  assert (Hdenied : forall t o,
             Notifications.permission s = false ->
             snd (Notifications.showNotification t o s) = s /\
             exists e, fst (Notifications.showNotification t o s) = Rejected e).
  { intros t o Hperm. unfold Notifications.showNotification. rewrite Hperm.
    destruct (Notifications.render t); [|cbn; eauto].
    destruct (Notifications.render _); cbn; eauto. }
  split; [|split; [|split; [|split; [|split]]]].
  - unfold Notifications.on_push.
    destruct (Notifications.parsed data) as [[|t b u]|e]; [left | apply Hshow | left];
      cbn; eauto.
  - intros d Hdata Hperm.
    assert (Hrun : Notifications.on_push data s =
                   Notifications.on_push (Notifications.Data (Fulfilled d)) s).
    { destruct Hdata as [-> | [-> ->]]; reflexivity. }
    rewrite Hrun, on_push_payload, Hperm. eexists. split; [reflexivity|]. cbn.
    repeat split; apply or_else_nonempty; discriminate.
  - intros e ->. reflexivity.
  - intros ->. eexists. split; reflexivity.
  - intros Hperm. unfold Notifications.on_push.
    destruct (Notifications.parsed data) as [[|t b u]|e]; [| now apply Hdenied |];
      cbn; eauto.
  - intros text b u -> n. unfold Notifications.on_push, Notifications.parsed,
      Notifications.showNotification. cbn.
    destruct (Notifications.render _); [|discriminate].
    destruct (Notifications.permission s); [|discriminate].
    intros [= <-]. reflexivity.
Qed.

(** X18. Clicking the notification a push produced closes it and then
    opens a window at the URL the payload named, or at "/" when the payload
    named none or an empty one. *)
Theorem push_then_click_opens_url
    (d : Notifications.Payload) (s : Notifications.Shell) :
  Notifications.permission s = true ->
  exists n,
    snd (Notifications.on_push (Notifications.Data (Fulfilled d)) s) =
      Notifications.record (Notifications.Shown n) s /\
    Notifications.happened
      (snd (Notifications.on_notificationclick n
              (snd (Notifications.on_push (Notifications.Data (Fulfilled d)) s)))) =
      Notifications.OpenedWindow
        (match Notifications.url d with
         | Some u => if String.eqb u "" then "/" else u
         | None => "/"
         end)
      :: Notifications.Closed n :: Notifications.Shown n :: Notifications.happened s.
Proof.
  intros Hperm. rewrite on_push_payload, Hperm.
  eexists. split; [reflexivity|]. cbn.
  destruct (Notifications.url d) as [[|c u]|]; reflexivity.
Qed.

(** ** The theme manager *)

Lemma theme_consistent_new (p : ThemeManager.Page) :
  theme_consistent (ThemeManager.new p).
Proof.
  split; [reflexivity|]. unfold ThemeManager.new, ThemeManager.getInitialTheme. cbn.
  destruct (ThemeManager.stored_theme p) as [[|c s]|]; reflexivity.
Qed.

Lemma theme_consistent_step (m : ThemeManager.t) (e : ThemeManager.Event) :
  theme_consistent m -> theme_consistent (ThemeManager.step m e).
Proof.
  intros [Hattr Htheme]. destruct e as [|dark]; cbn.
  - unfold ThemeManager.on_click. destruct (ThemeManager.has_toggle _).
    + split; [reflexivity|]. unfold ThemeManager.toggleTheme, ThemeManager.getInitialTheme.
      cbn. now destruct (String.eqb (ThemeManager.theme m) "light").
    + now split.
  - unfold ThemeManager.on_system_change.
    unfold ThemeManager.getInitialTheme in *.
    destruct (ThemeManager.stored_theme (ThemeManager.page m)) as [[|c s]|] eqn:Hs;
      split; cbn; rewrite ?Hs; try reflexivity; assumption.
Qed.

(** X19. After construction and any sequence of toggle clicks and system
    preference changes, the data-theme attribute of the page is the
    manager's theme, and that theme is the one a reload would start with:
    the stored theme when it is a non-empty string, the system theme
    otherwise. *)
Theorem theme_matches_attribute_and_reload
    (p : ThemeManager.Page) (events : list ThemeManager.Event) :
  let m := ThemeManager.run (ThemeManager.new p) events in
  ThemeManager.data_theme (ThemeManager.page m) = Some (ThemeManager.theme m) /\
  ThemeManager.theme (ThemeManager.new (ThemeManager.page m)) = ThemeManager.theme m.
Proof.
  intros m.
  assert (Hinv : theme_consistent m).
  { subst m. generalize (theme_consistent_new p).
    generalize (ThemeManager.new p). unfold ThemeManager.run.
    induction events as [|e events IH]; intros m0 Hm0; [exact Hm0|].
    cbn. apply IH. now apply theme_consistent_step. }
  destruct Hinv as [Hattr Htheme]. split; [exact Hattr|].
  rewrite Htheme. reflexivity.
Qed.

(** X20. A click on the toggle sets the theme to dark when it was light
    and to light in every other case, stores it, and shows it; so the theme
    after a click is always light or dark, and two clicks bring a light or
    dark theme back. *)
Theorem toggle_click_cycle (m : ThemeManager.t) :
  ThemeManager.has_toggle (ThemeManager.page m) = true ->
  let m1 := ThemeManager.on_click m in
  (ThemeManager.theme m1 = "dark" \/ ThemeManager.theme m1 = "light") /\
  (ThemeManager.theme m1 = "dark" <-> ThemeManager.theme m = "light") /\
  ThemeManager.stored_theme (ThemeManager.page m1) = Some (ThemeManager.theme m1) /\
  ThemeManager.data_theme (ThemeManager.page m1) = Some (ThemeManager.theme m1) /\
  (ThemeManager.theme m = "light" \/ ThemeManager.theme m = "dark" ->
   ThemeManager.theme (ThemeManager.on_click m1) = ThemeManager.theme m).
Proof.
  intros Htoggle m1. subst m1. unfold ThemeManager.on_click. rewrite Htoggle.
  cbn [ThemeManager.toggleTheme ThemeManager.setItem ThemeManager.applyTheme
       ThemeManager.page ThemeManager.theme ThemeManager.has_toggle
       ThemeManager.stored_theme ThemeManager.data_theme].
  rewrite Htoggle. unfold ThemeManager.toggleTheme. cbn.
  destruct (String.eqb_spec (ThemeManager.theme m) "light") as [Hl|Hl]; cbn.
  - split; [now left|]. split; [tauto|]. split; [reflexivity|].
    split; [reflexivity|]. intros _. now rewrite Hl.
  - split; [now right|]. split; [split; [discriminate | contradiction]|].
    split; [reflexivity|]. split; [reflexivity|].
    intros [Habs|Hd]; [contradiction | now rewrite Hd].
Qed.

(** X21. A stored theme wins over the system: once a non-empty theme is
    stored, as after any click on the toggle, changes of the system
    preference leave the theme, the attribute and the stored value as they
    are.  While no theme is stored, the theme follows the system. *)
Theorem stored_theme_overrides_system (m : ThemeManager.t) (changes : list bool) :
  let m' := ThemeManager.run m (List.map ThemeManager.SystemChange changes) in
  (forall s, ThemeManager.stored_theme (ThemeManager.page m) = Some s -> s <> "" ->
             ThemeManager.theme m' = ThemeManager.theme m /\
             ThemeManager.data_theme (ThemeManager.page m') =
               ThemeManager.data_theme (ThemeManager.page m) /\
             ThemeManager.stored_theme (ThemeManager.page m') = Some s) /\
  (forall dark, ThemeManager.stored_theme (ThemeManager.page m) = None ->
                ThemeManager.theme (ThemeManager.on_system_change dark m) =
                  (if dark then "dark" else "light")).
Proof.
  intros m'. split.
  - subst m'. revert m. unfold ThemeManager.run.
    induction changes as [|dark changes IH]; intros m s Hs Hne; [now repeat split|].
    cbn [List.map fold_left ThemeManager.step].
    assert (Hstep : ThemeManager.theme (ThemeManager.on_system_change dark m) =
                    ThemeManager.theme m /\
                    ThemeManager.data_theme
                      (ThemeManager.page (ThemeManager.on_system_change dark m)) =
                    ThemeManager.data_theme (ThemeManager.page m) /\
                    ThemeManager.stored_theme
                      (ThemeManager.page (ThemeManager.on_system_change dark m)) =
                    Some s).
    { unfold ThemeManager.on_system_change. rewrite Hs.
      destruct s; [contradiction | now repeat split]. }
    destruct Hstep as (Ht & Ha & Hst).
    destruct (IH _ s Hst Hne) as (Ht' & Ha' & Hst').
    repeat split; congruence.
  - intros dark Hnone. unfold ThemeManager.on_system_change. rewrite Hnone.
    reflexivity.
Qed.

(** ** The clipboard manager *)

Lemma querySelector_code_identifier (id : string) (p : ClipboardManager.Page) :
  ClipboardManager.css_identifier id = true ->
  ClipboardManager.querySelector_code id p =
  Fulfilled (ClipboardManager.blocks p !! id).
Proof. intros Hid. unfold ClipboardManager.querySelector_code. now rewrite Hid. Qed.

(** X22. Copy takes the code as it was when highlighting was set up: for a
    typescript code element whose container has a CSS identifier as its
    id, whose text was not empty at that time and that had no
    data-original-code attribute, a later copy writes that text to the
    clipboard whatever the element's text has become.  If the text was
    empty at that time, the copy takes the current text instead. *)
Theorem copy_writes_original_code
    (p : ClipboardManager.Page) (name id current : string)
    (button : ClipboardManager.Button) (b : ClipboardManager.CodeBlock) :
  ClipboardManager.buttons p !! name = Some button ->
  ClipboardManager.target button = Some id ->
  ClipboardManager.css_identifier id = true ->
  ClipboardManager.blocks p !! id = Some b ->
  ClipboardManager.typescript b = true ->
  ClipboardManager.original b = None ->
  ClipboardManager.clipboard_works p = true ->
  ClipboardManager.clipboard
    (snd (ClipboardManager.copyCode name
            (ClipboardManager.retext id current
               (ClipboardManager.initSyntaxHighlighting p)))) =
    Some (if String.eqb (ClipboardManager.text b) "" then current
          else ClipboardManager.text b).
Proof.
  intros Hbutton Htarget Hid Hblock Hts Horig Hworks.
  unfold ClipboardManager.retext, ClipboardManager.initSyntaxHighlighting.
  cbn [ClipboardManager.blocks ClipboardManager.set_blocks].
  rewrite lookup_fmap, Hblock. cbn [fmap option_fmap option_map].
  unfold ClipboardManager.copyCode.
  cbn [ClipboardManager.buttons ClipboardManager.set_blocks].
  rewrite Hbutton, Htarget, querySelector_code_identifier by exact Hid.
  cbn [ClipboardManager.blocks ClipboardManager.set_blocks
       ClipboardManager.clipboard_works].
  rewrite lookup_insert_eq, Hworks.
  unfold ClipboardManager.remember_original. rewrite Hts, Horig.
  cbn [ClipboardManager.original ClipboardManager.text].
  unfold ClipboardManager.showCopiedState.
  destruct (ClipboardManager.text b) as [|c s];
    destruct (ClipboardManager.label button); reflexivity.
Qed.

(** X23. Setting up highlighting twice is the same as once, and it never
    changes a data-original-code attribute that is already there. *)
Theorem initSyntaxHighlighting_idempotent (p : ClipboardManager.Page) :
  ClipboardManager.initSyntaxHighlighting (ClipboardManager.initSyntaxHighlighting p) =
  ClipboardManager.initSyntaxHighlighting p /\
  (forall id b code,
      ClipboardManager.blocks p !! id = Some b ->
      ClipboardManager.original b = Some code ->
      ClipboardManager.blocks (ClipboardManager.initSyntaxHighlighting p) !! id = Some b).
Proof.
  split.
  - unfold ClipboardManager.initSyntaxHighlighting, ClipboardManager.set_blocks. cbn.
    f_equal. rewrite <- map_fmap_compose. apply map_fmap_ext.
    intros id b _. unfold compose, ClipboardManager.remember_original.
    destruct (ClipboardManager.typescript b) eqn:Hts; cbn; rewrite ?Hts; [|reflexivity].
    destruct (ClipboardManager.original b) eqn:Ho; cbn; rewrite ?Hts, ?Ho; reflexivity.
  - intros id b code Hb Ho. unfold ClipboardManager.initSyntaxHighlighting. cbn.
    rewrite lookup_fmap, Hb. cbn. unfold ClipboardManager.remember_original.
    rewrite Ho. now destruct (ClipboardManager.typescript b).
Qed.

(** The button as [showCopiedState] leaves it, and as its timer leaves it. *)
Lemma copyCode_success
    (p : ClipboardManager.Page) (name id l : string)
    (button : ClipboardManager.Button) (b : ClipboardManager.CodeBlock) :
  ClipboardManager.buttons p !! name = Some button ->
  ClipboardManager.target button = Some id ->
  ClipboardManager.label button = Some l ->
  ClipboardManager.querySelector_code id p = Fulfilled (Some b) ->
  ClipboardManager.clipboard_works p = true ->
  ClipboardManager.copyCode name p =
    (Fulfilled tt,
     ClipboardManager.set_timers (ClipboardManager.timers p ++ [(name, l)])%list
       (ClipboardManager.set_buttons
          (<[name := ClipboardManager.mkButton (Some id) (Some "Copied!") true
                       (Some "Code copied to clipboard")]>
             (ClipboardManager.buttons p))
          (ClipboardManager.writeText
             (or_else (ClipboardManager.original b) (ClipboardManager.text b)) p))).
Proof.
  intros Hbutton Htarget Hlabel Hblock Hworks. unfold ClipboardManager.copyCode.
  rewrite Hbutton, Htarget, Hblock, Hworks.
  unfold ClipboardManager.showCopiedState. rewrite Hlabel, Htarget. reflexivity.
Qed.

(** X24. A copy whose selector finds the code element and whose write
    works puts the code on the clipboard, marks the button as copied with
    the label "Copied!" and raises no alert; when the timer then fires,
    the button has its former label back, is no longer marked, and no
    timer is left. *)
Theorem copied_state_is_restored
    (p : ClipboardManager.Page) (name id l : string)
    (button : ClipboardManager.Button) (b : ClipboardManager.CodeBlock) :
  ClipboardManager.buttons p !! name = Some button ->
  ClipboardManager.target button = Some id ->
  ClipboardManager.label button = Some l ->
  ClipboardManager.querySelector_code id p = Fulfilled (Some b) ->
  ClipboardManager.clipboard_works p = true ->
  ClipboardManager.timers p = [] ->
  let p1 := snd (ClipboardManager.copyCode name p) in
  let p2 := ClipboardManager.timeout p1 in
  fst (ClipboardManager.copyCode name p) = Fulfilled tt /\
  ClipboardManager.clipboard p1 =
    Some (or_else (ClipboardManager.original b) (ClipboardManager.text b)) /\
  ClipboardManager.alerts p1 = ClipboardManager.alerts p /\
  ClipboardManager.buttons p1 !! name =
    Some (ClipboardManager.mkButton (Some id) (Some "Copied!") true
            (Some "Code copied to clipboard")) /\
  ClipboardManager.buttons p2 !! name =
    Some (ClipboardManager.mkButton (Some id) (Some l) false
            (Some "Copy code to clipboard")) /\
  ClipboardManager.timers p2 = [] /\
  (forall other, other <> name ->
                 ClipboardManager.buttons p2 !! other =
                 ClipboardManager.buttons p !! other).
Proof.
  intros Hbutton Htarget Hlabel Hblock Hworks Htimers p1 p2. subst p2 p1.
  rewrite (copyCode_success p name id l button b) by assumption.
  rewrite Htimers. unfold ClipboardManager.timeout. cbn.
  rewrite lookup_insert_eq. cbn. rewrite !lookup_insert_eq.
  repeat split. intros other Hother.
  now rewrite !lookup_insert_ne by congruence.
Qed.

(** X25. The label is put back from what the button showed when it was
    clicked.  So when a button whose selector finds the code element is
    clicked a second time before its timer fired, and both timers then
    fire, the button is no longer marked as copied but keeps the label
    "Copied!"; when the timer fires between the two clicks, the former
    label is back at the end. *)
Theorem second_click_keeps_copied_label
    (p : ClipboardManager.Page) (name id l : string)
    (button : ClipboardManager.Button) (b : ClipboardManager.CodeBlock) :
  ClipboardManager.buttons p !! name = Some button ->
  ClipboardManager.target button = Some id ->
  ClipboardManager.label button = Some l ->
  ClipboardManager.querySelector_code id p = Fulfilled (Some b) ->
  ClipboardManager.clipboard_works p = true ->
  ClipboardManager.timers p = [] ->
  let click := fun q => snd (ClipboardManager.copyCode name q) in
  ClipboardManager.buttons
    (ClipboardManager.timeout (ClipboardManager.timeout (click (click p))))
    !! name =
    Some (ClipboardManager.mkButton (Some id) (Some "Copied!") false
            (Some "Copy code to clipboard")) /\
  ClipboardManager.buttons
    (ClipboardManager.timeout (click (ClipboardManager.timeout (click p))))
    !! name =
    Some (ClipboardManager.mkButton (Some id) (Some l) false
            (Some "Copy code to clipboard")).
Proof.
  intros Hbutton Htarget Hlabel Hblock Hworks Htimers click. subst click. cbn beta.
  rewrite (copyCode_success p name id l button b) by assumption.
  rewrite Htimers. cbn [snd]. split.
  - erewrite (copyCode_success _ name id "Copied!");
      [| cbn; apply lookup_insert_eq | reflexivity | reflexivity
       | exact Hblock | exact Hworks].
    unfold ClipboardManager.timeout. cbn.
    rewrite !lookup_insert_eq. cbn. rewrite !lookup_insert_eq. cbn.
    now rewrite lookup_insert_eq.
  - unfold ClipboardManager.timeout at 2. cbn. rewrite lookup_insert_eq. cbn.
    erewrite (copyCode_success _ name id l);
      [| cbn; apply lookup_insert_eq | reflexivity | reflexivity
       | exact Hblock | exact Hworks].
    unfold ClipboardManager.timeout. cbn.
    rewrite !lookup_insert_eq. cbn. now rewrite lookup_insert_eq.
Qed.

(** X26. How a copy can go wrong.  The selector is built from the
    button's data-code-block attribute, "null" when there is none.  When
    querying the selector throws, as it does for an id like snippet.1, the
    promise of the click is rejected and nothing at all happens: no alert,
    no console line.  When the selector finds nothing, nothing happens
    either.  When writing to the clipboard fails, the failure is logged
    and the user is alerted to copy by hand; the clipboard, the button and
    the timers stay as they were.  When the write works but the button has
    no .copy-text child, the code is on the clipboard and the user is
    alerted all the same, the button unchanged. *)
Theorem copy_failure_modes
    (p : ClipboardManager.Page) (name : string) (button : ClipboardManager.Button) :
  ClipboardManager.buttons p !! name = Some button ->
  let id := match ClipboardManager.target button with
            | Some id => id
            | None => "null"
            end in
  let found := ClipboardManager.querySelector_code id p in
  (forall e, found = Rejected e ->
             ClipboardManager.copyCode name p = (Rejected e, p)) /\
  (found = Fulfilled None -> ClipboardManager.copyCode name p = (Fulfilled tt, p)) /\
  (forall b,
      found = Fulfilled (Some b) ->
      ClipboardManager.clipboard_works p = false ->
      let p' := snd (ClipboardManager.copyCode name p) in
      fst (ClipboardManager.copyCode name p) = Fulfilled tt /\
      ClipboardManager.alerts p' =
        "Please copy the code manually (Ctrl+C / Cmd+C)" :: ClipboardManager.alerts p /\
      ClipboardManager.errors p' = "Failed to copy code:" :: ClipboardManager.errors p /\
      ClipboardManager.clipboard p' = ClipboardManager.clipboard p /\
      ClipboardManager.buttons p' = ClipboardManager.buttons p /\
      ClipboardManager.timers p' = ClipboardManager.timers p) /\
  (forall b,
      found = Fulfilled (Some b) ->
      ClipboardManager.clipboard_works p = true ->
      ClipboardManager.label button = None ->
      let p' := snd (ClipboardManager.copyCode name p) in
      fst (ClipboardManager.copyCode name p) = Fulfilled tt /\
      ClipboardManager.clipboard p' =
        Some (or_else (ClipboardManager.original b) (ClipboardManager.text b)) /\
      ClipboardManager.alerts p' =
        "Please copy the code manually (Ctrl+C / Cmd+C)" :: ClipboardManager.alerts p /\
      ClipboardManager.buttons p' = ClipboardManager.buttons p /\
      ClipboardManager.timers p' = ClipboardManager.timers p) /\
  (ClipboardManager.css_identifier id = true ->
   found = Fulfilled (ClipboardManager.blocks p !! id)) /\
  (ClipboardManager.css_identifier id = false ->
   found = ClipboardManager.query_other p id).
Proof.
  intros Hbutton id found. unfold ClipboardManager.copyCode. rewrite Hbutton.
  fold id. fold found.
  split; [|split; [|split; [|split; [|split]]]].
  - intros e He. now rewrite He.
  - intros Hnone. now rewrite Hnone.
  - intros b Hb Hfails. cbn zeta. rewrite Hb, Hfails. repeat split.
  - intros b Hb Hworks Hlabel. cbn zeta. rewrite Hb, Hworks.
    unfold ClipboardManager.showCopiedState. rewrite Hlabel. repeat split.
  - intros Hid. subst found. unfold ClipboardManager.querySelector_code.
    now rewrite Hid.
  - intros Hid. subst found. unfold ClipboardManager.querySelector_code.
    now rewrite Hid.
Qed.

(** ** The further properties at concrete inputs *)

Lemma handleRequest_unknown_strategy_witness :
  fst (handleRequest app_js "cache-only" offline_world) = Rejected failed_to_fetch.
Proof.
  apply (proj1 (handleRequest_unknown_strategy app_js "cache-only" offline_world
                  ltac:(discriminate) ltac:(discriminate) ltac:(discriminate))).
Defined.

Lemma fulfilled_fetch_is_passed_on_witness :
  fst (networkFirst app_js not_found_world) = Fulfilled (Some (page 404 "Not Found")).
Proof.
  apply (proj1 (fulfilled_fetch_is_passed_on app_js not_found_world
                  (page 404 "Not Found") eq_refl)).
Defined.

Lemma cacheFirst_miss_offline_witness :
  exists r, fst (cacheFirst app_js offline_world) = Fulfilled (Some r) /\ status r = 503.
Proof.
  destruct (cacheFirst_miss_offline app_js offline_world failed_to_fetch)
    as (r & Hr & Hstatus & _); [vm_compute; reflexivity | reflexivity |].
  exists r. split; assumption.
Defined.

Lemma executor_writes_own_key_only_witness :
  entries CACHE_NAME (snd (staleWhileRevalidate app_js stale_world))
    !! "https://example.test/style.css" =
  entries CACHE_NAME stale_world !! "https://example.test/style.css".
Proof.
  apply (proj1 (executor_writes_own_key_only staleWhileRevalidate app_js stale_world
                  ltac:(repeat constructor))).
  right. discriminate.
Defined.

Lemma cacheFirst_miss_then_hit_witness :
  storable "GET" (page 200 "v2.js") = true /\
  fst (cacheFirst_as "GET" app_js
         (with_network offline (snd (cacheFirst_as "GET" app_js online_world)))) =
    Fulfilled (Some (page 200 "v2.js")).
Proof.
  split; [reflexivity|].
  rewrite (cacheFirst_miss_then_hit "GET" app_js online_world (page 200 "v2.js") offline);
    [reflexivity | vm_compute; reflexivity | reflexivity | reflexivity | reflexivity].
Defined.

Lemma networkFirst_online_then_offline_witness :
  storable "GET" (page 200 "v2.js") = true /\
  fst (networkFirst_as "GET" app_js
         (with_network offline (snd (networkFirst_as "GET" app_js online_world)))) =
    Fulfilled (Some (page 200 "v2.js")).
Proof.
  split; [reflexivity|].
  apply (networkFirst_online_then_offline "GET" app_js online_world (page 200 "v2.js")
           offline failed_to_fetch); reflexivity.
Defined.

Lemma cache_urls_idempotent_witness :
  entries CACHE_NAME
    (snd (on_message (Some (mkMessage "CACHE_URLS" [app_js_url]))
            (snd (on_message (Some (mkMessage "CACHE_URLS" [app_js_url])) online_world)))) =
  entries CACHE_NAME
    (snd (on_message (Some (mkMessage "CACHE_URLS" [app_js_url])) online_world)).
Proof.
  apply (cache_urls_idempotent [app_js_url] online_world).
  intros u Hu. apply list_elem_of_singleton in Hu as ->.
  exists (page 200 "v2.js"). split; reflexivity.
Defined.

Lemma precached_url_served_offline_witness :
  hd_error (replies (snd (on_message (Some (mkMessage "CACHE_URLS" [app_js_url]))
                            online_world))) =
    Some (mkReply true None) /\
  fst (cacheFirst app_js
         (with_network offline
            (snd (on_message (Some (mkMessage "CACHE_URLS" [app_js_url])) online_world)))) =
    Fulfilled (Some (page 200 "v2.js")).
Proof.
  assert (Hreply : hd_error (replies (snd (on_message
                                             (Some (mkMessage "CACHE_URLS" [app_js_url]))
                                             online_world))) =
                   Some (mkReply true None)) by (vm_compute; reflexivity).
  split; [exact Hreply|].
  rewrite (proj1 (precached_url_served_offline [app_js_url] app_js online_world
                    (page 200 "v2.js") offline Hreply
                    ltac:(apply list_elem_of_singleton; reflexivity)
                    eq_refl)).
  reflexivity.
Defined.

Lemma activation_idempotent_witness :
  fst (on_activate_version "v2" (snd (on_activate_version "v2" two_versions_world))) =
    Fulfilled tt.
Proof.
  rewrite (activation_idempotent "v2" two_versions_world (fun n => eq_refl)).
  reflexivity.
Defined.

Lemma dot_in_directory_network_first_witness :
  getStrategyForRequest (get "/docs.v2/app" None) = "network-first".
Proof.
  apply (dot_in_directory_network_first (get "/docs.v2/app" None) "/docs" "v2/app");
    reflexivity.
Defined.

Lemma push_then_click_opens_url_witness :
  exists n,
    Notifications.happened
      (snd (Notifications.on_notificationclick n
              (snd (Notifications.on_push
                      (Notifications.Data (Fulfilled sample_payload)) granted_shell)))) =
    [Notifications.OpenedWindow "/snippets/pick"; Notifications.Closed n;
     Notifications.Shown n].
Proof.
  destruct (push_then_click_opens_url sample_payload granted_shell eq_refl)
    as (n & _ & Hclick).
  exists n. exact Hclick.
Defined.

Lemma toggle_click_cycle_witness :
  ThemeManager.theme (ThemeManager.on_click (ThemeManager.new dark_system_page)) = "light".
Proof.
  destruct (toggle_click_cycle (ThemeManager.new dark_system_page) eq_refl)
    as ([Hdark | Hlight] & Hiff & _).
  - apply Hiff in Hdark. discriminate Hdark.
  - exact Hlight.
Defined.

Lemma copy_writes_original_code_witness :
  ClipboardManager.css_identifier "snippet-1" = true /\
  ClipboardManager.clipboard
    (snd (ClipboardManager.copyCode "copy-1"
            (ClipboardManager.retext "snippet-1" "<span>type</span>"
               (ClipboardManager.initSyntaxHighlighting sample_page)))) =
    Some "type Nullable<T> = T | null".
Proof.
  split; [reflexivity|].
  apply (copy_writes_original_code sample_page "copy-1" "snippet-1" "<span>type</span>"
           sample_button sample_block); reflexivity.
Defined.

Lemma copied_state_is_restored_witness :
  ClipboardManager.querySelector_code "snippet-1" sample_page =
    Fulfilled (Some sample_block) /\
  ClipboardManager.buttons
    (ClipboardManager.timeout (snd (ClipboardManager.copyCode "copy-1" sample_page)))
    !! "copy-1" = Some sample_button.
Proof.
  split; [reflexivity|].
  destruct (copied_state_is_restored sample_page "copy-1" "snippet-1" "Copy"
              sample_button sample_block eq_refl eq_refl eq_refl eq_refl eq_refl eq_refl)
    as (_ & _ & _ & _ & Hrestored & _).
  exact Hrestored.
Defined.

Lemma second_click_keeps_copied_label_witness :
  ClipboardManager.label
    <$> ClipboardManager.buttons
          (ClipboardManager.timeout
             (ClipboardManager.timeout
                (snd (ClipboardManager.copyCode "copy-1"
                        (snd (ClipboardManager.copyCode "copy-1" sample_page))))))
        !! "copy-1" = Some (Some "Copied!").
Proof.
  rewrite (proj1 (second_click_keeps_copied_label sample_page "copy-1" "snippet-1" "Copy"
                    sample_button sample_block eq_refl eq_refl eq_refl eq_refl eq_refl
                    eq_refl)).
  reflexivity.
Defined.

Lemma copy_failure_modes_witness :
  ClipboardManager.alerts (snd (ClipboardManager.copyCode "copy-1" locked_page)) =
    ["Please copy the code manually (Ctrl+C / Cmd+C)"] /\
  ClipboardManager.css_identifier "snippet.1" = false /\
  ClipboardManager.copyCode "copy-1" dotted_page =
    (Rejected (mkError "SyntaxError" "not a valid selector"), dotted_page).
Proof.
  split; [|split; [reflexivity|]].
  - apply (proj1 (proj2 (proj2 (copy_failure_modes locked_page "copy-1" sample_button
                                  eq_refl)))
             sample_block); reflexivity.
  - apply (proj1 (copy_failure_modes dotted_page "copy-1"
                    (ClipboardManager.mkButton (Some "snippet.1") (Some "Copy") false
                       (Some "Copy code to clipboard")) eq_refl)).
    reflexivity.
Defined.

Lemma push_notification_is_filled_in_witness :
  Notifications.on_push array_title granted_shell =
    (Fulfilled tt,
     Notifications.record
       (Notifications.Shown
          (Notifications.mkNotification "" "New TypeScript snippet available!"
             "/icon-192.png" "/badge-72.png" [200; 100; 200] (Notifications.Text "/")))
       granted_shell) /\
  Notifications.shown_title
    (Notifications.mkNotification "" "New TypeScript snippet available!"
       "/icon-192.png" "/badge-72.png" [200; 100; 200] (Notifications.Text "/")) = "".
Proof.
  assert (Hrun : Notifications.on_push array_title granted_shell =
    (Fulfilled tt,
     Notifications.record
       (Notifications.Shown
          (Notifications.mkNotification "" "New TypeScript snippet available!"
             "/icon-192.png" "/badge-72.png" [200; 100; 200] (Notifications.Text "/")))
       granted_shell)) by reflexivity.
  split; [exact Hrun|].
  exact (proj2 (proj2 (proj2 (proj2 (proj2
           (push_notification_is_filled_in array_title granted_shell)))))
           "" None None eq_refl _ Hrun).
Defined.

Lemma other_methods_bypass_cache_witness :
  "POST" <> "GET" /\
  entries CACHE_NAME stale_world !! app_js_url = Some (page 200 "v1.js") /\
  network_calls (snd (cacheFirst_as "POST" app_js stale_world)) = 1%nat /\
  fst (cacheFirst_as "POST" app_js stale_world) = Fulfilled (Some (page 200 "v2.js")).
Proof.
  assert (Hm : "POST" <> "GET") by discriminate.
  split; [exact Hm|]. split; [vm_compute; reflexivity|].
  destruct (proj1 (other_methods_bypass_cache "POST" app_js stale_world Hm)
              cacheFirst_as ltac:(repeat constructor)) as (Hcalls & _ & Hpass).
  split; [exact Hcalls|]. apply Hpass. reflexivity.
Defined.
